(** * School café voucher manager: roster, voucher ledger and persistence

    A shallow embedding of [src/App.tsx].  The React component [App] keeps
    its state in hooks; here the hook values are the fields of one record,
    [AppState], and every event handler is a function from the state in
    which it was rendered to the state after its setters have run.

    Conventions of the embedding:
    - a TypeScript [number] that counts commendations or pence is a [Z]:
      the handlers only add, subtract, compare and take [Math.max], which
      on integers in the safe range are the operations of [Z];
    - [string | null] and [Student | null] are [option];
    - arrays are lists, [Array.prototype.map] is [map], [find] is [find];
    - [window.localStorage] is a finite map from keys to strings whose
      reads and writes may throw; [JSON.parse] and [JSON.stringify] are the
      two methods of the class [Json];
    - [generateId()] and [new Date().toISOString()] read the environment, so
      their results are arguments of the issuing handler. *)

From Stdlib Require Import ZArith Ascii String List Bool Lia.
From stdpp Require Import base option list strings gmap.

Local Open Scope string_scope.
Local Open Scope list_scope.

(** ** Data model *)

Module Student.
Record t : Type := mk
  { id : string;
    name : string;
    commendations : Z }.

(** [{ ...student, commendations: c }] *)
Definition with_commendations (s : t) (c : Z) : t :=
  {| id := id s; name := name s; commendations := c |}.
End Student.

Module Voucher.
Record t : Type := mk
  { id : string;
    studentId : string;
    studentName : string;
    issuedAt : string;
    amountPence : Z;
    redeemed : bool }.

(** [{ ...voucher, redeemed: r }] *)
Definition with_redeemed (v : t) (r : bool) : t :=
  {| id := id v; studentId := studentId v; studentName := studentName v;
     issuedAt := issuedAt v; amountPence := amountPence v; redeemed := r |}.

(** The five fields written once, when the voucher is built. *)
Definition frozen (v : t) : string * string * string * string * Z :=
  (id v, studentId v, studentName v, issuedAt v, amountPence v).
End Voucher.

Inductive Page : Type := issue | log.

Definition TARGET_COMMENDATIONS : Z := 5.
Definition VOUCHER_AMOUNT_PENCE : Z := 290.

Definition DEMO_STUDENTS : list Student.t :=
  [ Student.mk "s1" "Alice Johnson" 3;
    Student.mk "s2" "Ben Carter" 5;
    Student.mk "s3" "Chloe Singh" 1;
    Student.mk "s4" "Daniel O'Neill" 4 ].

(** ** The persistence layer: [useLocalStorageState] *)

(** Outcome of a call that may throw. *)
Inductive Completion (A : Type) : Type :=
| Normal (a : A)
| Throw.
Arguments Normal {A} a.
Arguments Throw {A}.

(** [window.localStorage]: the stored items, whether reading throws (access
    to the storage is denied) and whether writing throws (the quota is
    used up). *)
Record LocalStorage : Type :=
  { items : gmap string string;
    unreadable : bool;
    full : bool }.

Definition getItem (ls : LocalStorage) (key : string)
  : Completion (option string) :=
  if unreadable ls then Throw else Normal (items ls !! key).

Definition setItem (ls : LocalStorage) (key value : string)
  : Completion LocalStorage :=
  if full ls then Throw
  else Normal {| items := <[key := value]> (items ls);
                 unreadable := unreadable ls; full := full ls |}.

(** [JSON.parse(s) as T] and [JSON.stringify(v)] at the type [T].  [parse]
    throws on text that is not JSON; the cast [as T] checks nothing. *)
Class Json (T : Type) : Type :=
  { JSON_parse : string → Completion T;
    JSON_stringify : T → string }.

(** [type LocalStorageUpdater<T> = T | ((previous: T) => T)] *)
Inductive LocalStorageUpdater (T : Type) : Type :=
| Value (v : T)
| Updater (f : T → T).
Arguments Value {T} v.
Arguments Updater {T} f.

(** The initialiser passed to [useState] (lines 53-68).  [win] is [None]
    when [typeof window === "undefined"]. *)
Definition useLocalStorageState_init {T : Type} `{!Json T}
    (win : option LocalStorage) (key : string) (defaultValue : T) : T :=
  match win with
  | None => defaultValue
  | Some ls =>
      match getItem ls key with
      | Throw => defaultValue
      | Normal None => defaultValue
      | Normal (Some stored) =>
          match JSON_parse stored with
          | Throw => defaultValue
          | Normal v => v
          end
      end
  end.

(** There is nothing to load under [key]: there is no [window], or the
    storage cannot be read, or it has no item under [key], or the item is
    text that [JSON.parse] rejects. *)
Definition absent_or_malformed {T : Type} `{!Json T}
    (win : option LocalStorage) (key : string) : Prop :=
  match win with
  | None => True
  | Some ls =>
      unreadable ls = true ∨ items ls !! key = None ∨
      ∃ text, items ls !! key = Some text ∧ JSON_parse (T := T) text = Throw
  end.

(** [setAndStore] (lines 70-87): the next value, and the storage after the
    write; a write that throws is ignored. *)
Definition setAndStore {T : Type} `{!Json T}
    (key : string) (updater : LocalStorageUpdater T)
    (previous : T) (win : option LocalStorage) : T * option LocalStorage :=
  let nextValue :=
    match updater with
    | Updater f => f previous
    | Value v => v
    end in
  let win' :=
    match win with
    | None => None
    | Some ls =>
        match setItem ls key (JSON_stringify nextValue) with
        | Normal ls' => Some ls'
        | Throw => Some ls
        end
    end in
  (nextValue, win').

(** ** The component state and its handlers *)

Record AppState : Type :=
  { page : Page;
    students : list Student.t;
    vouchers : list Voucher.t;
    selectedStudentId : option string;
    activeVoucher : option Voucher.t;
    window : option LocalStorage }.

Definition students_key : string := "cafe-voucher-students".
Definition vouchers_key : string := "cafe-voucher-log".

(** [student.id === selectedStudentId], the right-hand side being
    [string | null]. *)
Definition id_is (selected : option string) (sid : string) : bool :=
  match selected with
  | Some wanted => String.eqb sid wanted
  | None => false
  end.

(** [students.find(...) ?? students[0] ?? null] (lines 219-222). *)
Definition selectedStudent (roster : list Student.t)
    (selected : option string) : option Student.t :=
  match find (λ student, id_is selected (Student.id student)) roster with
  | Some student => Some student
  | None => head roster
  end.

(** Lines 224-226. *)
Definition canIssue (sel : option Student.t) : bool :=
  match sel with
  | Some student => (TARGET_COMMENDATIONS <=? Student.commendations student)%Z
  | None => false
  end.

(** The array callback of [handleAdjustCommendations]. *)
Definition adjust_one (sid : string) (delta : Z) (student : Student.t)
  : Student.t :=
  if String.eqb (Student.id student) sid
  then Student.with_commendations student
         (Z.max 0 (Student.commendations student + delta))
  else student.

(** The array callback of the debit in [handleIssueVoucher]. *)
Definition debit_one (sid : string) (student : Student.t) : Student.t :=
  if String.eqb (Student.id student) sid
  then Student.with_commendations student
         (Z.max 0 (Student.commendations student - TARGET_COMMENDATIONS))
  else student.

(** The array callback of [handleToggleRedeemed]. *)
Definition toggle_one (voucherId : string) (voucher : Voucher.t)
  : Voucher.t :=
  if String.eqb (Voucher.id voucher) voucherId
  then Voucher.with_redeemed voucher (negb (Voucher.redeemed voucher))
  else voucher.

Section Handlers.
Context `{!Json (list Student.t)} `{!Json (list Voucher.t)}.

(** The component's first render (lines 201-217). *)
Definition App_init (win : option LocalStorage) : AppState :=
  {| page := issue;
     students := useLocalStorageState_init win students_key DEMO_STUDENTS;
     vouchers := useLocalStorageState_init win vouchers_key [];
     selectedStudentId := Student.id <$> head DEMO_STUDENTS;
     activeVoucher := None;
     window := win |}.

Definition setStudents (updater : LocalStorageUpdater (list Student.t))
    (st : AppState) : AppState :=
  let '(next, win') :=
    setAndStore students_key updater (students st) (window st) in
  {| page := page st; students := next; vouchers := vouchers st;
     selectedStudentId := selectedStudentId st;
     activeVoucher := activeVoucher st; window := win' |}.

Definition setVouchers (updater : LocalStorageUpdater (list Voucher.t))
    (st : AppState) : AppState :=
  let '(next, win') :=
    setAndStore vouchers_key updater (vouchers st) (window st) in
  {| page := page st; students := students st; vouchers := next;
     selectedStudentId := selectedStudentId st;
     activeVoucher := activeVoucher st; window := win' |}.

Definition setSelectedStudentId (sel : option string) (st : AppState)
  : AppState :=
  {| page := page st; students := students st; vouchers := vouchers st;
     selectedStudentId := sel;
     activeVoucher := activeVoucher st; window := window st |}.

Definition setActiveVoucher (v : option Voucher.t) (st : AppState)
  : AppState :=
  {| page := page st; students := students st; vouchers := vouchers st;
     selectedStudentId := selectedStudentId st;
     activeVoucher := v; window := window st |}.

Definition setPage (p : Page) (st : AppState) : AppState :=
  {| page := p; students := students st; vouchers := vouchers st;
     selectedStudentId := selectedStudentId st;
     activeVoucher := activeVoucher st; window := window st |}.

(** Lines 228-239. *)
Definition handleAdjustCommendations (sid : string) (delta : Z)
    (st : AppState) : AppState :=
  setStudents (Updater (map (adjust_one sid delta))) st.

(** Lines 241-275, for a build whose voucher amount constant is
    [amountPence].  [selectedStudent] and [canIssue] are the values of the
    render the handler belongs to, that is, of [st]; [newId] is what
    [generateId()] returns and [nowIso] what the clock returns. *)
Definition handleIssueVoucher_at (amountPence : Z) (newId nowIso : string)
    (st : AppState) : AppState :=
  let sel := selectedStudent (students st) (selectedStudentId st) in
  match sel with
  | None => st
  | Some student =>
      if negb (canIssue sel) then st
      else
        let voucher :=
          {| Voucher.id := newId;
             Voucher.studentId := Student.id student;
             Voucher.studentName := Student.name student;
             Voucher.issuedAt := nowIso;
             Voucher.amountPence := amountPence;
             Voucher.redeemed := false |} in
        let st1 := setVouchers (Updater (λ previous, voucher :: previous)) st in
        let st2 :=
          setStudents (Updater (map (debit_one (Student.id student)))) st1 in
        setActiveVoucher (Some voucher) st2
  end.

(** The handler of the source, with the constant of line 23. *)
Definition handleIssueVoucher : string → string → AppState → AppState :=
  handleIssueVoucher_at VOUCHER_AMOUNT_PENCE.

(** Lines 277-280. *)
Definition handleReopenVoucher (voucher : Voucher.t) (st : AppState)
  : AppState :=
  setPage issue (setActiveVoucher (Some voucher) st).

(** Lines 282-290. *)
Definition handleToggleRedeemed (voucherId : string) (st : AppState)
  : AppState :=
  setVouchers (Updater (map (toggle_one voucherId))) st.

(** What the user can do: the [onClick] handlers of the component. *)
Inductive Action : Type :=
| AdjustCommendations (sid : string) (delta : Z)
| IssueVoucher (newId nowIso : string)
| ToggleRedeemed (voucherId : string)
| SelectStudent (sid : string)
| ReopenVoucher (voucher : Voucher.t)
| CloseVoucher
| ShowPage (p : Page).

Definition step_at (amountPence : Z) (st : AppState) (a : Action)
  : AppState :=
  match a with
  | AdjustCommendations sid delta => handleAdjustCommendations sid delta st
  | IssueVoucher newId nowIso =>
      handleIssueVoucher_at amountPence newId nowIso st
  | ToggleRedeemed voucherId => handleToggleRedeemed voucherId st
  | SelectStudent sid => setSelectedStudentId (Some sid) st
  | ReopenVoucher voucher => handleReopenVoucher voucher st
  | CloseVoucher => setActiveVoucher None st
  | ShowPage p => setPage p st
  end.

Definition step : AppState → Action → AppState :=
  step_at VOUCHER_AMOUNT_PENCE.

(** A session: the actions are handled one after the other, each by the
    handlers of the render that follows the previous one. *)
Definition run_at (amountPence : Z) (acts : list Action) (st : AppState)
  : AppState :=
  fold_left (step_at amountPence) acts st.

Definition run : list Action → AppState → AppState :=
  run_at VOUCHER_AMOUNT_PENCE.
(** The vouchers a session creates, oldest first: an [IssueVoucher] action
    handled in a state whose selected student passes [canIssue] creates one,
    every other action creates none. *)
Definition created_by (amountPence : Z) (st : AppState) (a : Action)
  : list Voucher.t :=
  match a with
  | IssueVoucher newId nowIso =>
      match selectedStudent (students st) (selectedStudentId st) with
      | Some student =>
          if canIssue (Some student)
          then [ {| Voucher.id := newId;
                    Voucher.studentId := Student.id student;
                    Voucher.studentName := Student.name student;
                    Voucher.issuedAt := nowIso;
                    Voucher.amountPence := amountPence;
                    Voucher.redeemed := false |} ]
          else []
      | None => []
      end
  | _ => []
  end.

Fixpoint issued_at (amountPence : Z) (acts : list Action) (st : AppState)
  : list Voucher.t :=
  match acts with
  | [] => []
  | a :: rest =>
      created_by amountPence st a
        ++ issued_at amountPence rest (step_at amountPence st a)
  end.

Definition issued : list Action → AppState → list Voucher.t :=
  issued_at VOUCHER_AMOUNT_PENCE.

(** [listVouchers]: the ledger as the log page maps over it (line 555). *)
Definition listVouchers (st : AppState) : list Voucher.t := vouchers st.

(** Changes that come from outside the handlers: any call of the roster
    setter (a rename of a student is one), and a build in which the constant
    of line 23 has another value. *)
Inductive Event : Type :=
| UserAction (a : Action)
| RosterEdit (updater : LocalStorageUpdater (list Student.t))
| AmountChange (amountPence : Z).

Definition step_event (w : Z * AppState) (e : Event) : Z * AppState :=
  match e with
  | UserAction a => (w.1, step_at w.1 w.2 a)
  | RosterEdit updater => (w.1, setStudents updater w.2)
  | AmountChange amountPence => (amountPence, w.2)
  end.

Definition run_events (es : list Event) (w : Z * AppState) : Z * AppState :=
  fold_left step_event es w.

(** How many vouchers a sequence of events adds to the ledger. *)
Fixpoint added_by (es : list Event) (w : Z * AppState) : nat :=
  match es with
  | [] => 0
  | e :: rest =>
      (match e with
       | UserAction a => length (created_by w.1 w.2 a)
       | _ => 0
       end + added_by rest (step_event w e))%nat
  end.
End Handlers.

(** ** What the component renders *)

(** [CommendationBadge] (lines 92-127): the number shown in "n more for a
    voucher", and the test that hides that text and turns the badge green. *)
Module CommendationBadge.
Definition remaining (value : Z) : Z :=
  Z.max 0 (TARGET_COMMENDATIONS - value).

Definition complete (value : Z) : bool :=
  (TARGET_COMMENDATIONS <=? value)%Z.

(** [{!complete && <span>{remaining} more for a voucher</span>}] *)
Definition hint (value : Z) : option Z :=
  if complete value then None else Some (remaining value).
End CommendationBadge.

(** The text on the right of the issue panel (lines 467-482). *)
Inductive PanelStatus : Type :=
| EligibleForVoucher
| NeedsMore (n : Z).

Definition panel_status (student : Student.t) : PanelStatus :=
  if (TARGET_COMMENDATIONS <=? Student.commendations student)%Z
  then EligibleForVoucher
  else NeedsMore (TARGET_COMMENDATIONS - Student.commendations student).

(** The two flags of a row of the students list (lines 367-369):
    [selectedStudent?.id === student.id] and the "Ready" tag. *)
Definition row_selected (sel : option Student.t) (student : Student.t)
  : bool :=
  match sel with
  | Some chosen => String.eqb (Student.id chosen) (Student.id student)
  | None => false
  end.

Definition row_eligible (student : Student.t) : bool :=
  (TARGET_COMMENDATIONS <=? Student.commendations student)%Z.

(** [s.slice(-n)] for [n > 0]: the last [n] characters of [s], all of [s]
    when it is shorter. *)
Definition slice_last (n : nat) (s : string) : string :=
  let chars := list_ascii_of_string s in
  string_of_list_ascii (drop (length chars - n) chars).

(** [toUpperCase] on ASCII text, which is what [generateId] produces (hex
    digits and dashes, or digits and the letters a-z): the letters a-z go
    to A-Z, every other ASCII character is kept. *)
Definition upper_char (c : ascii) : ascii :=
  let n := nat_of_ascii c in
  if (97 <=? n)%nat && (n <=? 122)%nat then ascii_of_nat (n - 32) else c.

Definition toUpperCase (s : string) : string :=
  string_of_list_ascii (map upper_char (list_ascii_of_string s)).

Definition is_ascii_text (s : string) : Prop :=
  Forall (λ c, (nat_of_ascii c < 128)%nat) (list_ascii_of_string s).

(** The two identifiers printed on a voucher card (lines 174 and 184); the
    first is also the "ID:" column of the log (line 565). *)
Definition short_id (voucher : Voucher.t) : string :=
  toUpperCase (slice_last 8 (Voucher.id voucher)).

Definition long_id (voucher : Voucher.t) : string :=
  toUpperCase (slice_last 16 (Voucher.id voucher)).

(** ** Measures and invariants of a session *)

(** The state with no [window]: what the hooks hold in memory. *)
Definition without_storage (st : AppState) : AppState :=
  {| page := page st; students := students st; vouchers := vouchers st;
     selectedStudentId := selectedStudentId st;
     activeVoucher := activeVoucher st; window := None |}.

(** Who is on the roster: the id and the name of each entry, in order. *)
Definition roster_names (roster : list Student.t) : list (string * string) :=
  map (λ s, (Student.id s, Student.name s)) roster.

Definition total_commendations (roster : list Student.t) : Z :=
  foldr Z.add 0%Z (map Student.commendations roster).

(** The ids that [generateId()] returned during a session, oldest first. *)
Definition generated (acts : list Action) : list string :=
  omap (λ a, match a with
             | IssueVoucher newId _ => Some newId
             | _ => None
             end) acts.

Definition is_issue (a : Action) : Prop :=
  ∃ newId nowIso, a = IssueVoucher newId nowIso.

(** [ls'] is [ls] after writes under the keys [keys] only: reading and
    writing work as before, every other key holds what it held, and no key
    has lost its item. *)
Definition written_under (keys : list string) (ls ls' : LocalStorage) : Prop :=
  unreadable ls' = unreadable ls ∧ full ls' = full ls ∧
  (∀ key, key ∉ keys → items ls' !! key = items ls !! key) ∧
  (∀ key, is_Some (items ls !! key) → is_Some (items ls' !! key)).

(** The actions that only change what is on screen: selecting a row,
    opening and closing the voucher preview, switching the page. *)
Definition is_view_action (a : Action) : Prop :=
  match a with
  | SelectStudent _ | ReopenVoucher _ | CloseVoucher | ShowPage _ => True
  | _ => False
  end.

(** [JSON.parse] reads back what [JSON.stringify] writes. *)
Definition round_trips (T : Type) `{!Json T} : Prop :=
  ∀ v : T, JSON_parse (JSON_stringify v) = Normal v.

Section Sessions.
Context `{!Json (list Student.t)} `{!Json (list Voucher.t)}.

(** The storage can be read and written, and a component mounted on it
    would start from the roster and the ledger that [st] holds. *)
Definition in_sync (st : AppState) : Prop :=
  ∃ ls, window st = Some ls ∧ unreadable ls = false ∧ full ls = false ∧
        useLocalStorageState_init (Some ls) students_key DEMO_STUDENTS
        = students st ∧
        useLocalStorageState_init (Some ls) vouchers_key [] = vouchers st.
End Sessions.

(** ** A codec for the examples

    The properties below hold for every [Json] instance.  The examples need
    one to compute with: this one writes every value as the text of the
    empty array and reads only that text, as the empty array. *)

Definition empty_array_text : string := "[]".

Definition EmptyArrayJson (A : Type) : Json (list A) :=
  {| JSON_parse := λ text,
       if String.eqb text empty_array_text then Normal [] else Throw;
     JSON_stringify := λ _, empty_array_text |}.

Definition memory_only (roster : list Student.t) (ledger : list Voucher.t)
    (selected : option string) : AppState :=
  {| page := issue; students := roster; vouchers := ledger;
     selectedStudentId := selected; activeVoucher := None; window := None |}.

(** A second codec, one that reads back what it writes: the value's code
    as a [positive] (the record types are countable), written in binary. *)

Fixpoint bits_of_positive (p : positive) : string :=
  match p with
  | xH => EmptyString
  | xO q => String "0"%char (bits_of_positive q)
  | xI q => String "1"%char (bits_of_positive q)
  end.

Fixpoint positive_of_bits (text : string) : option positive :=
  match text with
  | EmptyString => Some xH
  | String c rest =>
      if Ascii.eqb c "0"%char then xO <$> positive_of_bits rest
      else if Ascii.eqb c "1"%char then xI <$> positive_of_bits rest
      else None
  end.

Definition BinaryJson (T : Type) `{Countable T} : Json T :=
  {| JSON_parse := λ text,
       match positive_of_bits text ≫= decode with
       | Some v => Normal v
       | None => Throw
       end;
     JSON_stringify := λ v, bits_of_positive (encode v) |}.

#[global] Instance student_eq_dec : EqDecision Student.t.
Proof. solve_decision. Defined.

#[global] Instance voucher_eq_dec : EqDecision Voucher.t.
Proof. solve_decision. Defined.

#[global] Instance student_countable : Countable Student.t :=
  inj_countable'
    (λ s, (Student.id s, Student.name s, Student.commendations s))
    (λ t, Student.mk t.1.1 t.1.2 t.2)
    (λ s, match s with Student.mk _ _ _ => eq_refl end).

#[global] Instance voucher_countable : Countable Voucher.t :=
  inj_countable'
    (λ v, (Voucher.id v, Voucher.studentId v, Voucher.studentName v,
           Voucher.issuedAt v, Voucher.amountPence v, Voucher.redeemed v))
    (λ t, Voucher.mk t.1.1.1.1.1 t.1.1.1.1.2 t.1.1.1.2 t.1.1.2 t.1.2 t.2)
    (λ v, match v with Voucher.mk _ _ _ _ _ _ => eq_refl end).

(** States and values the examples use. *)

Definition alice (c : Z) : Student.t := Student.mk "s1" "Alice Johnson" c.
Definition ben (c : Z) : Student.t := Student.mk "s2" "Ben Carter" c.

Definition classroom (c : Z) : AppState :=
  memory_only [alice c; ben 5] [] (Some "s1").

Definition browser (its : gmap string string) : option LocalStorage :=
  Some {| items := its; unreadable := false; full := false |}.

Definition bens_voucher : Voucher.t :=
  Voucher.mk "3f2a9c1e-0001" "s2" "Ben Carter" "2025-03-01T09:00:00.000Z"
    290 false.

Definition in_browser (ledger : list Voucher.t) : AppState :=
  {| page := log; students := DEMO_STUDENTS; vouchers := ledger;
     selectedStudentId := Some "s2"; activeVoucher := None;
     window := browser ∅ |}.

Definition quota_used_up : LocalStorage :=
  {| items := {[ vouchers_key := "[]" ]}; unreadable := false; full := true |}.

Definition empty_storage : LocalStorage :=
  {| items := ∅; unreadable := false; full := false |}.

Definition on_storage (ls : LocalStorage) (ledger : list Voucher.t)
  : AppState :=
  {| page := issue; students := DEMO_STUDENTS; vouchers := ledger;
     selectedStudentId := Some "s2"; activeVoucher := None;
     window := Some ls |}.

(** The updater a rename of the student [sid] would pass to [setStudents]. *)
Definition rename_to (sid newName : string)
  : LocalStorageUpdater (list Student.t) :=
  Updater (map (λ student,
    if String.eqb (Student.id student) sid
    then Student.mk (Student.id student) newName
           (Student.commendations student)
    else student)).

(** ** Properties *)

Section Properties.
Context `{!Json (list Student.t)} `{!Json (list Voucher.t)}.

(** *** What the setters touch *)

Lemma students_setStudents updater st :
  students (setStudents updater st)
  = match updater with Updater f => f (students st) | Value v => v end.
Proof. by destruct updater. Qed.

Lemma vouchers_setStudents updater st :
  vouchers (setStudents updater st) = vouchers st.
Proof. done. Qed.

Lemma selected_setStudents updater st :
  selectedStudentId (setStudents updater st) = selectedStudentId st.
Proof. done. Qed.

Lemma vouchers_setVouchers updater st :
  vouchers (setVouchers updater st)
  = match updater with Updater f => f (vouchers st) | Value v => v end.
Proof. by destruct updater. Qed.

Lemma students_setVouchers updater st :
  students (setVouchers updater st) = students st.
Proof. done. Qed.

Lemma setStudents_persists updater st ls :
  window st = Some ls → full ls = false →
  ∃ ls', window (setStudents updater st) = Some ls' ∧
         items ls' !! students_key
         = Some (JSON_stringify (students (setStudents updater st))).
Proof.
  intros Hwin Hfull. unfold setStudents, setAndStore, setItem.
  rewrite Hwin, Hfull. simpl. eexists. split; [done|]. simpl.
  by rewrite lookup_insert_eq.
Qed.

Lemma setStudents_write_fails updater st ls :
  window st = Some ls → full ls = true →
  window (setStudents updater st) = Some ls.
Proof.
  intros Hwin Hfull. unfold setStudents, setAndStore, setItem.
  by rewrite Hwin, Hfull.
Qed.

(** *** [Array.prototype.find] *)

Lemma find_first {A} (p : A → bool) (l : list A) (x : A) :
  find p l = Some x →
  ∃ before after,
    l = before ++ x :: after ∧ p x = true ∧ Forall (λ y, p y = false) before.
Proof.
  induction l as [|y l IH]; simpl; [done|].
  destruct (p y) eqn:Hy.
  - intros [= ->]. exists [], l. by repeat split.
  - intros (before & after & -> & Hx & Hbefore)%IH.
    exists (y :: before), after. repeat split; [done|]. by constructor.
Qed.

Lemma find_nothing {A} (p : A → bool) (l : list A) :
  find p l = None ↔ Forall (λ y, p y = false) l.
Proof.
  induction l as [|y l IH]; simpl.
  - split; [constructor|done].
  - destruct (p y) eqn:Hy.
    + split; [done|]. intros Hall. apply Forall_cons_1 in Hall as [Hy' _].
      congruence.
    + rewrite IH. split; [by constructor|]. by intros [_ ?]%Forall_cons_1.
Qed.

Lemma find_map_stable {A} (p : A → bool) (f : A → A) (l : list A) :
  (∀ x, p (f x) = p x) → find p (map f l) = f <$> find p l.
Proof.
  intros Hp. induction l as [|y l IH]; simpl; [done|].
  rewrite Hp. by destruct (p y).
Qed.

Lemma id_is_true selected sid : id_is selected sid = true ↔ selected = Some sid.
Proof.
  destruct selected as [wanted|]; simpl; [|done].
  rewrite String.eqb_eq. split; congruence.
Qed.

Lemma id_is_false selected sid : id_is selected sid = false ↔ selected ≠ Some sid.
Proof.
  rewrite <- not_true_iff_false, id_is_true. done.
Qed.

(** *** The array callbacks *)

Lemma adjust_one_id sid delta student :
  Student.id (adjust_one sid delta student) = Student.id student.
Proof. unfold adjust_one. by destruct (String.eqb _ _). Qed.

Lemma adjust_one_name sid delta student :
  Student.name (adjust_one sid delta student) = Student.name student.
Proof. unfold adjust_one. by destruct (String.eqb _ _). Qed.

Lemma adjust_one_other sid delta student :
  Student.id student ≠ sid → adjust_one sid delta student = student.
Proof.
  intros Hne. unfold adjust_one.
  by destruct (String.eqb_spec (Student.id student) sid).
Qed.

Lemma adjust_one_hit sid delta student :
  Student.id student = sid →
  adjust_one sid delta student
  = Student.with_commendations student
      (Z.max 0 (Student.commendations student + delta)).
Proof.
  intros Heq. unfold adjust_one.
  by destruct (String.eqb_spec (Student.id student) sid).
Qed.

Lemma debit_one_as_adjust sid student :
  debit_one sid student = adjust_one sid (- TARGET_COMMENDATIONS) student.
Proof. done. Qed.

Lemma toggle_one_frozen voucherId voucher :
  Voucher.frozen (toggle_one voucherId voucher) = Voucher.frozen voucher.
Proof. unfold toggle_one. by destruct (String.eqb _ _). Qed.

Lemma toggle_one_other voucherId voucher :
  Voucher.id voucher ≠ voucherId → toggle_one voucherId voucher = voucher.
Proof.
  intros Hne. unfold toggle_one.
  by destruct (String.eqb_spec (Voucher.id voucher) voucherId).
Qed.

Lemma toggle_one_twice voucherId voucher :
  toggle_one voucherId (toggle_one voucherId voucher) = voucher.
Proof.
  unfold toggle_one.
  destruct (String.eqb (Voucher.id voucher) voucherId) eqn:Hid; simpl.
  - rewrite Hid. destruct voucher as [? ? ? ? ? r]; simpl.
    by rewrite negb_involutive.
  - by rewrite Hid.
Qed.

(** *** The selected student *)

Lemma selectedStudent_map roster selected (f : Student.t → Student.t) :
  (∀ s, Student.id (f s) = Student.id s) →
  selectedStudent (map f roster) selected
  = f <$> selectedStudent roster selected.
Proof.
  intros Hid. unfold selectedStudent.
  rewrite find_map_stable by (intros s; by rewrite Hid).
  destruct (find _ roster); simpl; [done|]. by destruct roster.
Qed.

Lemma selectedStudent_None roster selected :
  selectedStudent roster selected = None ↔ roster = [].
Proof.
  unfold selectedStudent. split.
  - destruct (find _ roster); [done|]. by destruct roster.
  - by intros ->.
Qed.

(** C7: [findStudent] (the expression [selectedStudent]) returns the first
    student of the roster whose id is the argument, when there is one; when
    the argument is null or no student has that id it returns the first
    student of the roster; and it is null exactly when the roster is
    empty. *)
Theorem selectedStudent_spec (roster : list Student.t)
    (selected : option string) :
  (∀ sid, selected = Some sid →
     (∃ s, s ∈ roster ∧ Student.id s = sid) →
     ∃ before s after,
       roster = before ++ s :: after ∧ Student.id s = sid ∧
       Forall (λ x, Student.id x ≠ sid) before ∧
       selectedStudent roster selected = Some s) ∧
  ((selected = None ∨ Forall (λ s, Some (Student.id s) ≠ selected) roster) →
     selectedStudent roster selected = head roster) ∧
  (selectedStudent roster selected = None ↔ roster = []).
Proof.
  split; [|split].
  - intros sid -> (s & Hin & Hs). unfold selectedStudent.
    destruct (find _ roster) as [found|] eqn:Hfind.
    + apply find_first in Hfind as (before & after & -> & Hp & Hbefore).
      apply id_is_true in Hp. exists before, found, after.
      split; [done|]. split; [congruence|]. split; [|done].
      eapply Forall_impl; [exact Hbefore|]. intros x Hx.
      apply id_is_false in Hx. congruence.
    + apply find_nothing in Hfind. rewrite Forall_forall in Hfind.
      specialize (Hfind s Hin). apply id_is_false in Hfind. congruence.
  - intros Hno. unfold selectedStudent.
    replace (find _ roster) with (@None Student.t); [done|].
    symmetry. apply find_nothing. destruct Hno as [->|Hno].
    + by apply Forall_forall.
    + eapply Forall_impl; [exact Hno|]. intros s Hs.
      apply id_is_false. congruence.
  - apply selectedStudent_None.
Qed.

(** *** Issuing a voucher *)

(** The two tests of the guard of [handleIssueVoucher], when both branches
    of each close at once. *)
Ltac by_guard_cases :=
  destruct (selectedStudent _ _) as [?student|]; [|done];
  by destruct (canIssue (Some _)).

Lemma handleIssueVoucher_at_refused amountPence newId nowIso st :
  canIssue (selectedStudent (students st) (selectedStudentId st)) = false →
  handleIssueVoucher_at amountPence newId nowIso st = st.
Proof.
  intros Hno. unfold handleIssueVoucher_at.
  destruct (selectedStudent _ _); [|done]. by rewrite Hno.
Qed.

Lemma handleIssueVoucher_at_vouchers amountPence newId nowIso st :
  vouchers (handleIssueVoucher_at amountPence newId nowIso st)
  = created_by amountPence st (IssueVoucher newId nowIso) ++ vouchers st.
Proof.
  unfold handleIssueVoucher_at, created_by. by_guard_cases.
Qed.

Lemma handleIssueVoucher_at_students amountPence newId nowIso st student :
  selectedStudent (students st) (selectedStudentId st) = Some student →
  canIssue (Some student) = true →
  students (handleIssueVoucher_at amountPence newId nowIso st)
  = map (debit_one (Student.id student)) (students st).
Proof.
  intros Hsel Hcan. unfold handleIssueVoucher_at. by rewrite Hsel, Hcan.
Qed.

Lemma handleIssueVoucher_at_selected amountPence newId nowIso st :
  selectedStudentId (handleIssueVoucher_at amountPence newId nowIso st)
  = selectedStudentId st.
Proof.
  unfold handleIssueVoucher_at. by_guard_cases.
Qed.

Lemma canIssue_true sel :
  canIssue sel = true ↔
  ∃ student, sel = Some student ∧
             (TARGET_COMMENDATIONS ≤ Student.commendations student)%Z.
Proof.
  destruct sel as [student|]; simpl.
  - rewrite Z.leb_le. split; [eauto|]. by intros (? & [= <-] & ?).
  - split; [done|]. by intros (? & ? & _).
Qed.

(** C1: [handleIssueVoucher] issues a voucher (the ledger gets a new first
    entry) if and only if there is a selected student and it has at least
    5 commendations in the state the handler is called in; otherwise it
    returns early and the whole state, the roster and the ledger in
    particular, is the one it was called in. *)
Theorem issue_gate (st : AppState) (newId nowIso : string) :
  let st' := handleIssueVoucher newId nowIso st in
  let eligible :=
    ∃ student,
      selectedStudent (students st) (selectedStudentId st) = Some student ∧
      (5 ≤ Student.commendations student)%Z in
  ((∃ voucher, vouchers st' = voucher :: vouchers st) ↔ eligible) ∧
  (¬ eligible → st' = st ∧ students st' = students st ∧
                vouchers st' = vouchers st).
Proof.
  intros st' eligible.
  assert (Hgate : canIssue (selectedStudent (students st) (selectedStudentId st))
                  = true ↔ eligible) by apply canIssue_true.
  assert (Hledger := handleIssueVoucher_at_vouchers
                       VOUCHER_AMOUNT_PENCE newId nowIso st).
  fold (handleIssueVoucher newId nowIso st) in Hledger. fold st' in Hledger.
  destruct (canIssue (selectedStudent (students st) (selectedStudentId st)))
    eqn:Hcan.
  - split; [|intros Hno; exfalso; by apply Hno, Hgate].
    split; [intros _; by apply Hgate|]. intros _. rewrite Hledger.
    unfold created_by.
    destruct (selectedStudent _ _) as [student|]; [|done].
    rewrite Hcan. eauto.
  - assert (Hsame : st' = st)
      by (by apply handleIssueVoucher_at_refused).
    split; [|intros _; by rewrite Hsame].
    split; [|intros He; apply Hgate in He; done].
    intros [voucher Hv]. rewrite Hsame in Hv.
    apply (f_equal length) in Hv. simpl in Hv. lia.
Qed.

(** C2: when the selected student has at least 5 commendations, after
    [handleIssueVoucher] the selected student is the same student with
    [max 0 (commendations - 5)] commendations, the roster is the old one
    with that debit applied to the entries of that id, and the ledger is
    one entry longer. *)
Theorem issue_debits (st : AppState) (newId nowIso : string)
    (student : Student.t) :
  selectedStudent (students st) (selectedStudentId st) = Some student →
  (5 ≤ Student.commendations student)%Z →
  let st' := handleIssueVoucher newId nowIso st in
  selectedStudent (students st') (selectedStudentId st')
  = Some (Student.with_commendations student
            (Z.max 0 (Student.commendations student - 5))) ∧
  students st' = map (debit_one (Student.id student)) (students st) ∧
  length (vouchers st') = S (length (vouchers st)).
Proof.
  intros Hsel Hfive st'.
  assert (Hcan : canIssue (Some student) = true)
    by (apply canIssue_true; eauto).
  assert (Hroster : students st'
                    = map (debit_one (Student.id student)) (students st))
    by (by apply handleIssueVoucher_at_students).
  split; [|split; [done|]].
  - rewrite Hroster. unfold st', handleIssueVoucher.
    rewrite handleIssueVoucher_at_selected.
    rewrite selectedStudent_map by (intros s; apply adjust_one_id).
    rewrite Hsel. simpl. f_equal. rewrite debit_one_as_adjust.
    by rewrite adjust_one_hit.
  - unfold st', handleIssueVoucher.
    rewrite handleIssueVoucher_at_vouchers. unfold created_by.
    by rewrite Hsel, Hcan.
Qed.

(** *** Adjusting commendations *)

Lemma adjust_one_nonneg sid delta student :
  (0 ≤ Student.commendations student)%Z →
  (0 ≤ Student.commendations (adjust_one sid delta student))%Z.
Proof.
  intros Hs. unfold adjust_one. destruct (String.eqb _ _); simpl; lia.
Qed.

Lemma map_adjust_one_absent sid delta (roster : list Student.t) :
  Forall (λ s, Student.id s ≠ sid) roster →
  map (adjust_one sid delta) roster = roster.
Proof.
  induction 1 as [|s l Hs _ IH]; simpl; [done|].
  by rewrite adjust_one_other, IH.
Qed.

Lemma step_at_nonneg amountPence st a :
  Forall (λ s, (0 ≤ Student.commendations s)%Z) (students st) →
  Forall (λ s, (0 ≤ Student.commendations s)%Z)
         (students (step_at amountPence st a)).
Proof.
  intros Hst.
  assert (Hmap : ∀ sid delta,
    Forall (λ s, (0 ≤ Student.commendations s)%Z)
           (map (adjust_one sid delta) (students st))).
  { intros sid delta. apply Forall_fmap.
    eapply Forall_impl; [exact Hst|]. intros s. apply adjust_one_nonneg. }
  destruct a as [sid delta|newId nowIso| | | | |]; simpl; [apply Hmap| |done..].
  - destruct (canIssue (selectedStudent (students st) (selectedStudentId st)))
      eqn:Hcan.
    + destruct (selectedStudent _ _) as [student|] eqn:Hsel; [|done].
      erewrite handleIssueVoucher_at_students by done. apply Hmap.
    + by rewrite handleIssueVoucher_at_refused.
Qed.

Lemma run_at_snoc amountPence acts a st :
  run_at amountPence (acts ++ [a]) st
  = step_at amountPence (run_at amountPence acts st) a.
Proof. unfold run_at. by rewrite fold_left_app. Qed.

Lemma run_at_cons amountPence acts a st :
  run_at amountPence (a :: acts) st
  = run_at amountPence acts (step_at amountPence st a).
Proof. done. Qed.

Lemma run_at_nonneg amountPence acts st :
  Forall (λ s, (0 ≤ Student.commendations s)%Z) (students st) →
  Forall (λ s, (0 ≤ Student.commendations s)%Z)
         (students (run_at amountPence acts st)).
Proof.
  revert st. induction acts as [|a acts IH]; intros st Hst; [done|].
  rewrite run_at_cons. by apply IH, step_at_nonneg.
Qed.

(** C3: from a roster whose commendation counts are all non-negative, after
    every prefix of every sequence of actions (adjustments by any id and any
    integer delta, issuances, and the others) every student's commendations
    are non-negative. *)
Theorem commendations_never_negative (acts : list Action) (st : AppState) :
  Forall (λ s, (0 ≤ Student.commendations s)%Z) (students st) →
  ∀ k, Forall (λ s, (0 ≤ Student.commendations s)%Z)
              (students (run (take k acts) st)).
Proof. intros Hst k. by apply run_at_nonneg. Qed.

(** C10: [handleAdjustCommendations] with an id that no student has leaves
    the roster as it is; in general the roster keeps its length and order,
    every entry keeps its id and name, an entry of another id is unchanged,
    an entry of that id gets [max 0 (commendations + delta)], and the ledger
    is not touched. *)
Theorem adjust_frame (sid : string) (delta : Z) (st : AppState) :
  let st' := handleAdjustCommendations sid delta st in
  (Forall (λ s, Student.id s ≠ sid) (students st) →
     students st' = students st) ∧
  length (students st') = length (students st) ∧
  (∀ i s, students st !! i = Some s →
     ∃ s', students st' !! i = Some s' ∧
           Student.id s' = Student.id s ∧
           Student.name s' = Student.name s ∧
           (Student.id s ≠ sid → s' = s) ∧
           (Student.id s = sid →
              Student.commendations s'
              = Z.max 0 (Student.commendations s + delta))) ∧
  vouchers st' = vouchers st.
Proof.
  intros st'.
  assert (Hroster : students st' = map (adjust_one sid delta) (students st))
    by done.
  rewrite Hroster. split; [|split; [|split; [|done]]].
  - apply map_adjust_one_absent.
  - apply length_map.
  - intros i s Hi. exists (adjust_one sid delta s).
    split; [by rewrite list_lookup_fmap, Hi|].
    split; [apply adjust_one_id|]. split; [apply adjust_one_name|].
    split; [apply adjust_one_other|].
    intros Heq. by rewrite adjust_one_hit.
Qed.

(** *** The ledger *)

Lemma created_by_short amountPence st a :
  rev (created_by amountPence st a) = created_by amountPence st a.
Proof.
  destruct a; try done. simpl.
  destruct (selectedStudent _ _) as [student|]; [|done].
  by destruct (_ <=? _)%Z.
Qed.

Lemma step_at_ledger amountPence st a :
  vouchers (step_at amountPence st a)
  = created_by amountPence st a
      ++ match a with
         | ToggleRedeemed voucherId => map (toggle_one voucherId) (vouchers st)
         | _ => vouchers st
         end.
Proof.
  destruct a as [sid delta|newId nowIso| | | | |]; try done.
  apply handleIssueVoucher_at_vouchers.
Qed.

Lemma step_at_length amountPence st a :
  length (vouchers (step_at amountPence st a))
  = (length (created_by amountPence st a) + length (vouchers st))%nat.
Proof.
  rewrite step_at_ledger, length_app. f_equal.
  destruct a; try done. apply length_map.
Qed.

Lemma step_at_keeps amountPence st a i (v : Voucher.t) :
  vouchers st !! i = Some v →
  ∃ v', vouchers (step_at amountPence st a)
          !! (length (created_by amountPence st a) + i)%nat = Some v' ∧
        Voucher.frozen v' = Voucher.frozen v ∧
        (a ≠ ToggleRedeemed (Voucher.id v) → v' = v).
Proof.
  intros Hi. rewrite step_at_ledger.
  rewrite lookup_app_r by lia.
  replace (length _ + i - length _)%nat with i by lia.
  destruct a as [| |voucherId| | | |]; try (exists v; by rewrite Hi).
  exists (toggle_one voucherId v). rewrite list_lookup_fmap, Hi.
  split; [done|]. split; [apply toggle_one_frozen|].
  intros Hne. apply toggle_one_other. congruence.
Qed.

Lemma frozen_id (v v' : Voucher.t) :
  Voucher.frozen v' = Voucher.frozen v → Voucher.id v' = Voucher.id v.
Proof. unfold Voucher.frozen. by intros [= ? _ _ _ _]. Qed.

Lemma run_at_keeps amountPence acts st i (v : Voucher.t) :
  vouchers st !! i = Some v →
  ∃ v', vouchers (run_at amountPence acts st)
          !! (length (issued_at amountPence acts st) + i)%nat = Some v' ∧
        Voucher.frozen v' = Voucher.frozen v ∧
        (ToggleRedeemed (Voucher.id v) ∉ acts → v' = v).
Proof.
  revert st i v. induction acts as [|a acts IH]; intros st i v Hi.
  - exists v. by repeat split.
  - destruct (step_at_keeps amountPence st a i v Hi) as (v1 & H1 & Hf1 & Hsame1).
    destruct (IH _ _ _ H1) as (v2 & H2 & Hf2 & Hsame2).
    exists v2. rewrite run_at_cons. simpl issued_at. rewrite length_app.
    split; [|split].
    + rewrite <- H2. f_equal. lia.
    + congruence.
    + intros Hnot. rewrite not_elem_of_cons in Hnot. destruct Hnot as [Ha Hacts].
      rewrite Hsame2; [by apply Hsame1|].
      by rewrite (frozen_id _ _ Hf1).
Qed.

Lemma run_at_length amountPence acts st :
  length (vouchers (run_at amountPence acts st))
  = (length (issued_at amountPence acts st) + length (vouchers st))%nat.
Proof.
  revert st. induction acts as [|a acts IH]; intros st; [done|].
  rewrite run_at_cons, IH, step_at_length. simpl issued_at.
  rewrite length_app. lia.
Qed.

Lemma run_at_frozen amountPence acts st :
  map Voucher.frozen (vouchers (run_at amountPence acts st))
  = map Voucher.frozen (rev (issued_at amountPence acts st))
      ++ map Voucher.frozen (vouchers st).
Proof.
  revert st. induction acts as [|a acts IH]; intros st; [done|].
  rewrite run_at_cons, IH. simpl issued_at.
  rewrite rev_app_distr, created_by_short, map_app, <- app_assoc. f_equal.
  rewrite step_at_ledger, map_app. f_equal.
  destruct a as [| |voucherId| | | |]; try done.
  rewrite map_map. apply map_ext. intros v. apply toggle_one_frozen.
Qed.

Lemma run_at_exact amountPence acts st :
  Forall (λ a, ∀ voucherId, a ≠ ToggleRedeemed voucherId) acts →
  vouchers (run_at amountPence acts st)
  = rev (issued_at amountPence acts st) ++ vouchers st.
Proof.
  intros Hacts. revert st.
  induction Hacts as [|a acts Ha _ IH]; intros st; [done|].
  rewrite run_at_cons, IH. simpl issued_at.
  rewrite rev_app_distr, created_by_short, <- app_assoc. f_equal.
  rewrite step_at_ledger. f_equal.
  destruct a as [| |voucherId| | | |]; try done. by destruct (Ha voucherId).
Qed.

(** C5: a successful issuance puts the new voucher in front of the ledger;
    after any sequence of actions the ledger lists, newest first, the
    vouchers the sequence issued, followed by the ledger it started from,
    both with their frozen fields as issued; and when the sequence toggles
    nothing the ledger is exactly that list. *)
Theorem ledger_most_recent_first (acts : list Action) (st : AppState)
    (newId nowIso : string) :
  (canIssue (selectedStudent (students st) (selectedStudentId st)) = true →
     ∃ voucher,
       issued [IssueVoucher newId nowIso] st = [voucher] ∧
       Voucher.id voucher = newId ∧ Voucher.issuedAt voucher = nowIso ∧
       listVouchers (handleIssueVoucher newId nowIso st)
       = voucher :: listVouchers st) ∧
  map Voucher.frozen (listVouchers (run acts st))
  = map Voucher.frozen (rev (issued acts st))
      ++ map Voucher.frozen (listVouchers st) ∧
  (Forall (λ a, ∀ voucherId, a ≠ ToggleRedeemed voucherId) acts →
     listVouchers (run acts st) = rev (issued acts st) ++ listVouchers st).
Proof.
  split; [|split].
  - intros Hcan. unfold listVouchers, handleIssueVoucher, issued.
    rewrite handleIssueVoucher_at_vouchers. simpl issued_at.
    rewrite app_nil_r. unfold created_by.
    destruct (selectedStudent _ _) as [student|]; [|done].
    rewrite Hcan. simpl in Hcan. rewrite Hcan. eexists. by repeat split.
  - apply run_at_frozen.
  - apply run_at_exact.
Qed.

(** C6: toggling the same id twice gives back the ledger, and toggling an
    id that no voucher has leaves the ledger as it is; a single toggle
    negates [redeemed] on the entries of that id. *)
Theorem toggle_involution (voucherId : string) (st : AppState) :
  vouchers (handleToggleRedeemed voucherId (handleToggleRedeemed voucherId st))
  = vouchers st ∧
  (Forall (λ v, Voucher.id v ≠ voucherId) (vouchers st) →
     vouchers (handleToggleRedeemed voucherId st) = vouchers st) ∧
  (∀ i v, vouchers st !! i = Some v → Voucher.id v = voucherId →
     vouchers (handleToggleRedeemed voucherId st) !! i
     = Some (Voucher.with_redeemed v (negb (Voucher.redeemed v)))).
Proof.
  unfold handleToggleRedeemed. rewrite !vouchers_setVouchers.
  split; [|split].
  - rewrite map_map. rewrite <- (map_id (vouchers st)) at 2.
    apply map_ext. intros v. apply toggle_one_twice.
  - induction 1 as [|v l Hv _ IH]; simpl; [done|].
    by rewrite toggle_one_other, IH.
  - intros i v Hi Hid. rewrite list_lookup_fmap, Hi. simpl. f_equal.
    unfold toggle_one. by destruct (String.eqb_spec (Voucher.id v) voucherId).
Qed.

(** C9: over any sequence of actions the ledger only grows, by the vouchers
    issued, and every voucher that was in it is still there, behind the
    newer ones, with the same id, studentId, studentName, issuedAt and
    amountPence; it is the very same voucher, [redeemed] included, unless
    the sequence contains a toggle of that voucher's id. *)
Theorem ledger_permanent (acts : list Action) (st : AppState) (i : nat)
    (v : Voucher.t) :
  vouchers st !! i = Some v →
  length (vouchers (run acts st))
  = (length (issued acts st) + length (vouchers st))%nat ∧
  ∃ v', vouchers (run acts st) !! (length (issued acts st) + i)%nat = Some v' ∧
        Voucher.id v' = Voucher.id v ∧
        Voucher.studentId v' = Voucher.studentId v ∧
        Voucher.studentName v' = Voucher.studentName v ∧
        Voucher.issuedAt v' = Voucher.issuedAt v ∧
        Voucher.amountPence v' = Voucher.amountPence v ∧
        (ToggleRedeemed (Voucher.id v) ∉ acts → v' = v).
Proof.
  intros Hi. split; [apply run_at_length|].
  destruct (run_at_keeps VOUCHER_AMOUNT_PENCE acts st i v Hi)
    as (v' & Hv' & Hfrozen & Hsame).
  exists v'. unfold Voucher.frozen in Hfrozen.
  injection Hfrozen as Hid Hsid Hname Hat Hamount. by repeat split.
Qed.

(** *** Snapshots *)

Lemma step_event_keeps (w : Z * AppState) (e : Event) i (v : Voucher.t) :
  vouchers w.2 !! i = Some v →
  ∃ v', vouchers (step_event w e).2 !! (added_by [e] w + i)%nat = Some v' ∧
        Voucher.frozen v' = Voucher.frozen v.
Proof.
  intros Hi. destruct e as [a|updater|amountPence].
  - destruct (step_at_keeps w.1 w.2 a i v Hi) as (v' & Hv' & Hfrozen & _).
    exists v'. split; [|done]. rewrite <- Hv'. simpl. f_equal. lia.
  - exists v. split; [exact Hi|done].
  - exists v. split; [exact Hi|done].
Qed.

Lemma run_events_keeps (es : list Event) (w : Z * AppState) i
    (v : Voucher.t) :
  vouchers w.2 !! i = Some v →
  ∃ v', vouchers (run_events es w).2 !! (added_by es w + i)%nat = Some v' ∧
        Voucher.frozen v' = Voucher.frozen v.
Proof.
  revert w i v. induction es as [|e es IH]; intros w i v Hi.
  - by exists v.
  - destruct (step_event_keeps w e i v Hi) as (v1 & H1 & Hf1).
    destruct (IH _ _ _ H1) as (v2 & H2 & Hf2).
    exists v2. split; [|congruence].
    rewrite <- H2. unfold run_events. simpl. f_equal. lia.
Qed.

(** C4: a voucher in the ledger keeps its studentName and amountPence over
    every sequence of events in which the handlers run, the roster is
    replaced through its setter in any way (a rename of the originating
    student is such a replacement) and the amount constant takes other
    values: it is found behind the vouchers added since, with both fields as
    they were. *)
Theorem voucher_snapshot (es : list Event) (amountPence : Z) (st : AppState)
    (i : nat) (v : Voucher.t) :
  vouchers st !! i = Some v →
  ∃ v', vouchers (run_events es (amountPence, st)).2
          !! (added_by es (amountPence, st) + i)%nat = Some v' ∧
        Voucher.studentName v' = Voucher.studentName v ∧
        Voucher.amountPence v' = Voucher.amountPence v.
Proof.
  intros Hi.
  destruct (run_events_keeps es (amountPence, st) i v Hi) as (v' & Hv' & Hf).
  exists v'. unfold Voucher.frozen in Hf.
  injection Hf as _ _ Hname _ Hamount. by repeat split.
Qed.

(** *** Loading *)

Lemma useLocalStorageState_init_default {T : Type} `{!Json T}
    (win : option LocalStorage) (key : string) (d : T) :
  absent_or_malformed (T := T) win key →
  useLocalStorageState_init win key d = d.
Proof.
  unfold absent_or_malformed, useLocalStorageState_init, getItem.
  destruct win as [ls|]; [|done].
  intros [Href|[Hnone|(text & Hsome & Hbad)]].
  - by rewrite Href.
  - destruct (unreadable ls); [done|]. by rewrite Hnone.
  - destruct (unreadable ls); [done|]. by rewrite Hsome, Hbad.
Qed.

Lemma useLocalStorageState_init_other_key {T : Type} `{!Json T}
    (its : gmap string string) (r f : bool) (key other text : string)
    (d : T) :
  other ≠ key →
  useLocalStorageState_init
    (Some {| items := <[other := text]> its; unreadable := r; full := f |})
    key d
  = useLocalStorageState_init
      (Some {| items := its; unreadable := r; full := f |}) key d.
Proof.
  intros Hne. unfold useLocalStorageState_init, getItem. simpl.
  by rewrite lookup_insert_ne.
Qed.

(** C8: for every key and every type of record, when there is nothing to
    load under the key (no item, or text that [JSON.parse] rejects, or no
    read access to the storage) the state starts from the default: the seed
    roster for the roster key, the empty ledger for the voucher-log key;
    and the ledger that is loaded does not depend on what is stored under
    the roster key. *)
Theorem load_falls_back_to_default :
  (∀ (T : Type) (J : Json T) win key (d : T),
     absent_or_malformed (T := T) win key →
     useLocalStorageState_init win key d = d) ∧
  (∀ win, absent_or_malformed (T := list Student.t) win students_key →
     students (App_init win) = DEMO_STUDENTS) ∧
  (∀ win, absent_or_malformed (T := list Voucher.t) win vouchers_key →
     vouchers (App_init win) = []) ∧
  (∀ its garbage r f,
     vouchers (App_init
       (Some {| items := <[students_key := garbage]> its;
                unreadable := r; full := f |}))
     = vouchers (App_init
         (Some {| items := its; unreadable := r; full := f |}))).
Proof.
  split; [|split; [|split]].
  - intros T J win key d. apply useLocalStorageState_init_default.
  - intros win. apply useLocalStorageState_init_default.
  - intros win. apply useLocalStorageState_init_default.
  - intros its garbage r f. simpl.
    by apply useLocalStorageState_init_other_key.
Qed.

(** ** Further properties of the component *)

(** *** Sessions and the storage *)

Lemma handleIssueVoucher_at_issued amountPence newId nowIso st student :
  selectedStudent (students st) (selectedStudentId st) = Some student →
  canIssue (Some student) = true →
  handleIssueVoucher_at amountPence newId nowIso st
  = let voucher :=
      {| Voucher.id := newId;
         Voucher.studentId := Student.id student;
         Voucher.studentName := Student.name student;
         Voucher.issuedAt := nowIso;
         Voucher.amountPence := amountPence;
         Voucher.redeemed := false |} in
    setActiveVoucher (Some voucher)
      (setStudents (Updater (map (debit_one (Student.id student))))
         (setVouchers (Updater (λ previous, voucher :: previous)) st)).
Proof.
  intros Hsel Hcan. unfold handleIssueVoucher_at. by rewrite Hsel, Hcan.
Qed.

(** A property of states that the two storing setters keep, and that does
    not look at the page, the selection or the active voucher, is kept by
    every handler. *)
Lemma step_at_keeps_property (P : AppState → Prop) amountPence st a :
  (∀ updater st, P st → P (setStudents updater st)) →
  (∀ updater st, P st → P (setVouchers updater st)) →
  (∀ sel st, P st → P (setSelectedStudentId sel st)) →
  (∀ v st, P st → P (setActiveVoucher v st)) →
  (∀ p st, P st → P (setPage p st)) →
  P st → P (step_at amountPence st a).
Proof.
  intros Hstudents Hvouchers Hsel Hactive Hpage Hst.
  destruct a as [sid delta|newId nowIso|voucherId|sid|voucher| |p]; simpl.
  - by apply Hstudents.
  - destruct (canIssue (selectedStudent (students st) (selectedStudentId st)))
      eqn:Hcan.
    + destruct (selectedStudent _ _) as [student|] eqn:Hchosen; [|done].
      rewrite (handleIssueVoucher_at_issued _ _ _ _ student) by done.
      by apply Hactive, Hstudents, Hvouchers.
    + by rewrite handleIssueVoucher_at_refused.
  - by apply Hvouchers.
  - by apply Hsel.
  - by apply Hpage, Hactive.
  - by apply Hactive.
  - by apply Hpage.
Qed.

Lemma run_at_keeps_property (P : AppState → Prop) amountPence acts st :
  (∀ st a, P st → P (step_at amountPence st a)) →
  P st → P (run_at amountPence acts st).
Proof.
  intros Hstep. revert st.
  induction acts as [|a acts IH]; intros st Hst; [done|].
  rewrite run_at_cons. by apply IH, Hstep.
Qed.

Lemma without_storage_step amountPence st a :
  without_storage (step_at amountPence st a)
  = step_at amountPence (without_storage st) a.
Proof.
  destruct a as [sid delta|newId nowIso|voucherId|sid|voucher| |p];
    [done| |done..].
  simpl. unfold handleIssueVoucher_at. simpl.
  destruct (selectedStudent _ _) as [student|]; [|done].
  by destruct (canIssue (Some student)).
Qed.

(** X2: what a session computes does not depend on the storage: the page,
    the roster, the ledger, the selection and the active voucher after any
    sequence of actions are those of the same sequence run with no storage
    at all. *)
Theorem session_ignores_storage (acts : list Action) (st : AppState) :
  without_storage (run acts st) = run acts (without_storage st).
Proof.
  unfold run. revert st. induction acts as [|a acts IH]; intros st; [done|].
  by rewrite !run_at_cons, IH, without_storage_step.
Qed.

Lemma setStudents_full updater st ls :
  window st = Some ls → full ls = true →
  window (setStudents updater st) = Some ls.
Proof.
  intros Hwin Hfull. unfold setStudents, setAndStore, setItem.
  by rewrite Hwin, Hfull.
Qed.

Lemma setVouchers_full updater st ls :
  window st = Some ls → full ls = true →
  window (setVouchers updater st) = Some ls.
Proof.
  intros Hwin Hfull. unfold setVouchers, setAndStore, setItem.
  by rewrite Hwin, Hfull.
Qed.

(** X3: when writing to the storage throws, a session leaves the storage
    exactly as it found it, so a component mounted afterwards starts from
    the state of before the session. *)
Theorem full_storage_is_left_alone (acts : list Action) (st : AppState)
    (ls : LocalStorage) :
  window st = Some ls → full ls = true →
  window (run acts st) = Some ls ∧
  App_init (window (run acts st)) = App_init (window st).
Proof.
  intros Hwin Hfull.
  assert (Hsame : window (run acts st) = Some ls).
  { apply (run_at_keeps_property (λ st, window st = Some ls)); [|done].
    intros st0 a Hst0. apply step_at_keeps_property; try done.
    - intros updater st1 Hst1. by apply setStudents_full.
    - intros updater st1 Hst1. by apply setVouchers_full. }
  split; [done|]. by rewrite Hsame, Hwin.
Qed.

Lemma students_key_is_not_vouchers_key : students_key ≠ vouchers_key.
Proof. discriminate. Qed.

Lemma written_under_refl keys ls : written_under keys ls ls.
Proof. by repeat split. Qed.

Lemma written_under_trans keys ls1 ls2 ls3 :
  written_under keys ls1 ls2 → written_under keys ls2 ls3 →
  written_under keys ls1 ls3.
Proof.
  intros (Hr1 & Hf1 & Hother1 & Hkept1) (Hr2 & Hf2 & Hother2 & Hkept2).
  split; [congruence|]. split; [congruence|]. split.
  - intros key Hkey. by rewrite Hother2, Hother1.
  - intros key Hsome. by apply Hkept2, Hkept1.
Qed.

Lemma setItem_written_under keys ls key value ls' :
  key ∈ keys → setItem ls key value = Normal ls' →
  written_under keys ls ls'.
Proof.
  intros Hkey. unfold setItem. destruct (full ls) eqn:Hfull; [done|].
  intros [= <-]. split; [done|]. split; [done|]. simpl. split.
  - intros other Hother. apply lookup_insert_ne. by intros <-.
  - intros other Hsome. rewrite lookup_insert.
    by destruct (decide (key = other)).
Qed.

Lemma setAndStore_written_under {T : Type} `{!Json T} keys key updater
    (previous : T) ls :
  key ∈ keys →
  ∃ ls', (setAndStore key updater previous (Some ls)).2 = Some ls' ∧
         written_under keys ls ls'.
Proof.
  intros Hkey. unfold setAndStore. simpl.
  destruct (setItem ls key _) as [ls'|] eqn:Hset.
  - exists ls'. split; [done|]. by eapply setItem_written_under.
  - exists ls. split; [done|]. apply written_under_refl.
Qed.

(** X4: a session reads and writes the two keys of the component and no
    other: after any sequence of actions the storage still reads and writes
    as before, every other key holds what it held, and no key has lost its
    item. *)
Theorem session_writes_its_two_keys (acts : list Action) (st : AppState)
    (ls : LocalStorage) :
  window st = Some ls →
  ∃ ls', window (run acts st) = Some ls' ∧
         unreadable ls' = unreadable ls ∧ full ls' = full ls ∧
         (∀ key, key ≠ students_key → key ≠ vouchers_key →
            items ls' !! key = items ls !! key) ∧
         (∀ key, is_Some (items ls !! key) → is_Some (items ls' !! key)).
Proof.
  intros Hwin.
  pose (keys := [students_key; vouchers_key]).
  assert (Hrun : ∃ ls', window (run acts st) = Some ls' ∧
                        written_under keys ls ls').
  { apply (run_at_keeps_property
             (λ st, ∃ ls', window st = Some ls' ∧ written_under keys ls ls'));
      [|exists ls; split; [done|apply written_under_refl]].
    intros st0 a Hst0. apply step_at_keeps_property; try done.
    - intros updater st1 (ls1 & Hw1 & H1).
      destruct (setAndStore_written_under keys students_key updater
                  (students st1) ls1) as (ls2 & Hw2 & H2);
        [apply list_elem_of_here|].
      exists ls2. split; [|by eapply written_under_trans].
      unfold setStudents. rewrite Hw1.
      by destruct (setAndStore _ _ _ _).
    - intros updater st1 (ls1 & Hw1 & H1).
      destruct (setAndStore_written_under keys vouchers_key updater
                  (vouchers st1) ls1) as (ls2 & Hw2 & H2);
        [apply list_elem_of_further, list_elem_of_here|].
      exists ls2. split; [|by eapply written_under_trans].
      unfold setVouchers. rewrite Hw1.
      by destruct (setAndStore _ _ _ _). }
  destruct Hrun as (ls' & Hw & Hr & Hf & Hother & Hkept).
  exists ls'. repeat split; try done.
  intros key Hs Hv. apply Hother. unfold keys.
  rewrite !not_elem_of_cons. repeat split; try done. apply not_elem_of_nil.
Qed.

Lemma in_sync_setStudents updater st :
  round_trips (list Student.t) → in_sync st →
  in_sync (setStudents updater st).
Proof.
  intros Hround (ls & Hwin & Hread & Hfull & Hroster & Hledger).
  unfold setStudents, setAndStore, setItem. rewrite Hwin, Hfull.
  eexists. split; [done|]. simpl. split; [done|]. split; [done|].
  unfold useLocalStorageState_init, getItem. simpl. rewrite Hread.
  split.
  - by rewrite lookup_insert_eq, Hround.
  - rewrite lookup_insert_ne by discriminate. rewrite <- Hledger.
    unfold useLocalStorageState_init, getItem. by rewrite Hread.
Qed.

Lemma in_sync_setVouchers updater st :
  round_trips (list Voucher.t) → in_sync st →
  in_sync (setVouchers updater st).
Proof.
  intros Hround (ls & Hwin & Hread & Hfull & Hroster & Hledger).
  unfold setVouchers, setAndStore, setItem. rewrite Hwin, Hfull.
  eexists. split; [done|]. simpl. split; [done|]. split; [done|].
  unfold useLocalStorageState_init, getItem. simpl. rewrite Hread.
  split.
  - rewrite lookup_insert_ne by discriminate. rewrite <- Hroster.
    unfold useLocalStorageState_init, getItem. by rewrite Hread.
  - by rewrite lookup_insert_eq, Hround.
Qed.

(** X1: with a storage that can be read and written and a [JSON] that reads
    back what it writes, the state survives a reload: after any sequence of
    actions, a component mounted on the storage the session leaves starts
    from the roster and the ledger the session ended with. *)
Theorem reload_restores_session (acts : list Action) (ls : LocalStorage) :
  round_trips (list Student.t) → round_trips (list Voucher.t) →
  unreadable ls = false → full ls = false →
  let st := run acts (App_init (Some ls)) in
  students (App_init (window st)) = students st ∧
  vouchers (App_init (window st)) = vouchers st.
Proof.
  intros Hstudents Hvouchers Hread Hfull st.
  assert (Hsync : in_sync st).
  { apply (run_at_keeps_property in_sync); [|by exists ls].
    intros st0 a Hst0. apply step_at_keeps_property; try done.
    - intros updater st1. by apply in_sync_setStudents.
    - intros updater st1. by apply in_sync_setVouchers. }
  destruct Hsync as (ls' & Hwin & _ & _ & Hroster & Hledger).
  by rewrite Hwin.
Qed.

(** *** The roster over a session *)

Lemma step_at_roster amountPence st a :
  students (step_at amountPence st a) = students st ∨
  ∃ sid delta,
    students (step_at amountPence st a)
    = map (adjust_one sid delta) (students st).
Proof.
  destruct a as [sid delta|newId nowIso|voucherId|sid|voucher| |p];
    [right; by exists sid, delta| |by left..].
  simpl.
  destruct (canIssue (selectedStudent (students st) (selectedStudentId st)))
    eqn:Hcan.
  - destruct (selectedStudent _ _) as [student|] eqn:Hchosen; [|done].
    right. exists (Student.id student), (- TARGET_COMMENDATIONS)%Z.
    by apply handleIssueVoucher_at_students.
  - left. by rewrite handleIssueVoucher_at_refused.
Qed.

Lemma roster_names_adjust sid delta roster :
  roster_names (map (adjust_one sid delta) roster) = roster_names roster.
Proof.
  unfold roster_names. rewrite map_map. apply map_ext. intros s.
  by rewrite adjust_one_id, adjust_one_name.
Qed.

Lemma step_at_roster_names amountPence st a :
  roster_names (students (step_at amountPence st a))
  = roster_names (students st).
Proof.
  destruct (step_at_roster amountPence st a) as [->|(sid & delta & ->)];
    [done|apply roster_names_adjust].
Qed.

Lemma run_at_roster_names amountPence acts st :
  roster_names (students (run_at amountPence acts st))
  = roster_names (students st).
Proof.
  revert st. induction acts as [|a acts IH]; intros st; [done|].
  by rewrite run_at_cons, IH, step_at_roster_names.
Qed.

Lemma roster_names_ids roster :
  map Student.id roster = map fst (roster_names roster).
Proof. unfold roster_names. by rewrite map_map. Qed.

Lemma roster_names_names roster :
  map Student.name roster = map snd (roster_names roster).
Proof. unfold roster_names. by rewrite map_map. Qed.

(** X5: no handler adds, removes, reorders or renames a student: after any
    sequence of actions the roster has the same ids and the same names, in
    the same order, as before. *)
Theorem roster_is_stable (acts : list Action) (st : AppState) :
  map Student.id (students (run acts st)) = map Student.id (students st) ∧
  map Student.name (students (run acts st))
  = map Student.name (students st) ∧
  length (students (run acts st)) = length (students st).
Proof.
  assert (Hnames := run_at_roster_names VOUCHER_AMOUNT_PENCE acts st).
  fold (run acts st) in Hnames.
  split; [by rewrite !roster_names_ids, Hnames|].
  split; [by rewrite !roster_names_names, Hnames|].
  apply (f_equal length) in Hnames. unfold roster_names in Hnames.
  by rewrite !length_map in Hnames.
Qed.

Lemma selectedStudent_elem roster selected student :
  selectedStudent roster selected = Some student → student ∈ roster.
Proof.
  unfold selectedStudent.
  destruct (find _ roster) as [found|] eqn:Hfind.
  - intros [= <-].
    apply find_first in Hfind as (before & after & -> & _ & _).
    apply elem_of_app. right. apply list_elem_of_here.
  - destruct roster as [|first rest]; [done|]. intros [= <-].
    apply list_elem_of_here.
Qed.

Lemma created_by_known amountPence st a :
  Forall (λ v, (Voucher.studentId v, Voucher.studentName v)
               ∈ roster_names (students st) ∧
               Voucher.amountPence v = amountPence ∧
               Voucher.redeemed v = false)
         (created_by amountPence st a).
Proof.
  destruct a as [sid delta|newId nowIso|voucherId|sid|voucher| |p];
    try apply Forall_nil_2.
  simpl. destruct (selectedStudent _ _) as [student|] eqn:Hchosen;
    [|apply Forall_nil_2].
  destruct (_ <=? _)%Z; [|apply Forall_nil_2].
  apply Forall_singleton. simpl. split; [|done].
  apply selectedStudent_elem in Hchosen. unfold roster_names.
  by apply (list_elem_of_fmap_2'
              (λ s, (Student.id s, Student.name s)) _ student).
Qed.

Lemma step_at_ledger_known amountPence st a :
  Forall (λ v, (Voucher.studentId v, Voucher.studentName v)
               ∈ roster_names (students st)) (vouchers st) →
  Forall (λ v, (Voucher.studentId v, Voucher.studentName v)
               ∈ roster_names (students (step_at amountPence st a)))
         (vouchers (step_at amountPence st a)).
Proof.
  intros Hst. rewrite step_at_roster_names, step_at_ledger.
  apply Forall_app. split.
  - eapply Forall_impl; [apply created_by_known|]. by intros v [? _].
  - destruct a as [| |voucherId| | | |]; try done.
    apply Forall_fmap. eapply Forall_impl; [exact Hst|]. intros v Hv.
    simpl. unfold toggle_one. by destruct (String.eqb _ _).
Qed.

(** X6: the ledger never points outside the roster: if every voucher carries
    the id and the name of an entry of the roster (as in an empty ledger),
    this is still so after any sequence of actions. *)
Theorem ledger_refers_to_roster (acts : list Action) (st : AppState) :
  Forall (λ v, (Voucher.studentId v, Voucher.studentName v)
               ∈ roster_names (students st)) (vouchers st) →
  Forall (λ v, (Voucher.studentId v, Voucher.studentName v)
               ∈ roster_names (students (run acts st)))
         (vouchers (run acts st)).
Proof.
  intros Hst.
  apply (run_at_keeps_property
           (λ st, Forall (λ v, (Voucher.studentId v, Voucher.studentName v)
                               ∈ roster_names (students st)) (vouchers st)));
    [|done].
  intros st0 a. apply step_at_ledger_known.
Qed.

(** *** What a voucher costs *)

Lemma map_debit_one_absent sid (roster : list Student.t) :
  Forall (λ s, Student.id s ≠ sid) roster →
  map (debit_one sid) roster = roster.
Proof. apply map_adjust_one_absent. Qed.

Lemma total_commendations_cons (x : Student.t) (rest : list Student.t) :
  total_commendations (x :: rest)
  = (Student.commendations x + total_commendations rest)%Z.
Proof. done. Qed.

Lemma debit_one_hit (student : Student.t) :
  debit_one (Student.id student) student
  = Student.with_commendations student
      (Z.max 0 (Student.commendations student - TARGET_COMMENDATIONS)).
Proof. unfold debit_one. by rewrite String.eqb_refl. Qed.

Lemma debit_one_other sid (student : Student.t) :
  Student.id student ≠ sid → debit_one sid student = student.
Proof. apply adjust_one_other. Qed.

Lemma total_commendations_debit (roster : list Student.t) student :
  NoDup (map Student.id roster) → student ∈ roster →
  (TARGET_COMMENDATIONS ≤ Student.commendations student)%Z →
  (total_commendations (map (debit_one (Student.id student)) roster)
   = total_commendations roster - TARGET_COMMENDATIONS)%Z.
Proof.
  induction roster as [|x rest IH]; intros Hnodup Hin Hfive.
  - by apply elem_of_nil in Hin.
  - rewrite map_cons in Hnodup. apply NoDup_cons in Hnodup as [Hfresh Hrest].
    rewrite map_cons, !total_commendations_cons.
    apply elem_of_cons in Hin as [->|Hin].
    + rewrite debit_one_hit, map_debit_one_absent.
      * simpl. lia.
      * apply Forall_forall. intros y Hy Heq. apply Hfresh.
        rewrite <- Heq. by apply (list_elem_of_fmap_2 Student.id).
    + rewrite IH by done. rewrite debit_one_other; [lia|].
      intros Heq. apply Hfresh. rewrite Heq.
      by apply (list_elem_of_fmap_2 Student.id).
Qed.

Lemma step_at_ids amountPence st a :
  map Student.id (students (step_at amountPence st a))
  = map Student.id (students st).
Proof. by rewrite !roster_names_ids, step_at_roster_names. Qed.

Lemma step_at_cost amountPence st a :
  NoDup (map Student.id (students st)) →
  (∀ sid delta, a ≠ AdjustCommendations sid delta) →
  (total_commendations (students (step_at amountPence st a))
   + TARGET_COMMENDATIONS * Z.of_nat (length (created_by amountPence st a))
   = total_commendations (students st))%Z.
Proof.
  intros Hnodup Hnot.
  destruct a as [sid delta|newId nowIso|voucherId|sid|voucher| |p];
    [by destruct (Hnot sid delta)| |simpl; lia..].
  simpl.
  destruct (selectedStudent _ _) as [student|] eqn:Hchosen.
  - destruct (canIssue (Some student)) eqn:Hcan.
    + erewrite handleIssueVoucher_at_students by done.
      simpl in Hcan. rewrite Hcan. apply Z.leb_le in Hcan.
      rewrite total_commendations_debit;
        [simpl; lia|done|by eapply selectedStudent_elem|done].
    + rewrite handleIssueVoucher_at_refused by (by rewrite Hchosen).
      simpl in Hcan. rewrite Hcan. simpl. lia.
  - rewrite handleIssueVoucher_at_refused by (by rewrite Hchosen).
    simpl. lia.
Qed.

(** X7: every voucher costs exactly five commendations.  In a roster whose
    ids are distinct, over a sequence of actions that contains no
    adjustment, the commendations left on the roster plus five for each
    voucher issued add up to the commendations the roster started with. *)
Theorem vouchers_cost_five (acts : list Action) (st : AppState) :
  NoDup (map Student.id (students st)) →
  Forall (λ a, ∀ sid delta, a ≠ AdjustCommendations sid delta) acts →
  (total_commendations (students (run acts st))
   + 5 * Z.of_nat (length (issued acts st))
   = total_commendations (students st))%Z.
Proof.
  unfold run, issued. intros Hnodup Hacts. revert st Hnodup.
  induction Hacts as [|a acts Ha _ IH]; intros st Hnodup.
  - simpl. lia.
  - rewrite run_at_cons. simpl issued_at. rewrite length_app, Nat2Z.inj_add.
    assert (Hstep := step_at_cost VOUCHER_AMOUNT_PENCE st a Hnodup Ha).
    assert (Hnext : NoDup (map Student.id
                             (students (step_at VOUCHER_AMOUNT_PENCE st a))))
      by (by rewrite step_at_ids).
    specialize (IH _ Hnext). unfold TARGET_COMMENDATIONS in Hstep. lia.
Qed.

Lemma with_commendations_same (student : Student.t) :
  Student.with_commendations student (Student.commendations student) = student.
Proof. by destruct student. Qed.

Lemma with_commendations_twice (student : Student.t) (c d : Z) :
  Student.with_commendations (Student.with_commendations student c) d
  = Student.with_commendations student d.
Proof. done. Qed.

Lemma issue_moves_selected_student amountPence newId nowIso st student :
  selectedStudent (students st) (selectedStudentId st) = Some student →
  canIssue (Some student) = true →
  let st' := handleIssueVoucher_at amountPence newId nowIso st in
  selectedStudent (students st') (selectedStudentId st')
  = Some (Student.with_commendations student
            (Student.commendations student - TARGET_COMMENDATIONS)).
Proof.
  intros Hchosen Hcan st'. unfold st'.
  rewrite handleIssueVoucher_at_selected.
  erewrite handleIssueVoucher_at_students by done.
  rewrite selectedStudent_map by (intros s; apply adjust_one_id).
  rewrite Hchosen. simpl. rewrite debit_one_hit. do 2 f_equal.
  simpl in Hcan. apply Z.leb_le in Hcan. lia.
Qed.

Lemma fives_in_less_than_five (c : Z) :
  (c < TARGET_COMMENDATIONS)%Z → Z.to_nat (c / TARGET_COMMENDATIONS) = 0%nat.
Proof.
  unfold TARGET_COMMENDATIONS. intros Hc.
  assert (c / 5 < 1)%Z by (apply Z.div_lt_upper_bound; lia). lia.
Qed.

Lemma fives_in_five_more (c : Z) :
  (TARGET_COMMENDATIONS ≤ c)%Z →
  Z.to_nat (c / TARGET_COMMENDATIONS)
  = S (Z.to_nat ((c - TARGET_COMMENDATIONS) / TARGET_COMMENDATIONS)).
Proof.
  unfold TARGET_COMMENDATIONS. intros Hc.
  replace c with (c - 5 + 1 * 5)%Z at 1 by lia.
  rewrite Z.div_add by lia.
  assert (0 ≤ (c - 5) / 5)%Z by (apply Z.div_pos; lia). lia.
Qed.

Lemma issuing_in_a_row_at amountPence (acts : list Action) (st : AppState)
    (student : Student.t) :
  Forall is_issue acts →
  selectedStudent (students st) (selectedStudentId st) = Some student →
  let n := Nat.min (length acts)
             (Z.to_nat (Student.commendations student
                        / TARGET_COMMENDATIONS)) in
  length (issued_at amountPence acts st) = n ∧
  selectedStudent (students (run_at amountPence acts st))
                  (selectedStudentId (run_at amountPence acts st))
  = Some (Student.with_commendations student
            (Student.commendations student
             - TARGET_COMMENDATIONS * Z.of_nat n)).
Proof.
  intros Hacts. revert st student.
  induction Hacts as [|a acts Ha _ IH]; intros st student Hchosen n.
  - unfold n. simpl. split; [done|]. rewrite Hchosen. f_equal.
    rewrite Z.mul_0_r, Z.sub_0_r. symmetry. apply with_commendations_same.
  - destruct Ha as (newId & nowIso & ->). rewrite run_at_cons.
    simpl issued_at. rewrite length_app. simpl step_at.
    unfold created_by. rewrite Hchosen.
    destruct (canIssue (Some student)) eqn:Hcan;
      pose proof Hcan as Hleb; simpl in Hleb; rewrite Hleb.
    + assert (Hfive : (TARGET_COMMENDATIONS ≤ Student.commendations student)%Z)
        by (simpl in Hcan; by apply Z.leb_le).
      assert (Hnext := issue_moves_selected_student amountPence newId nowIso
                         st student Hchosen Hcan).
      destruct (IH _ _ Hnext) as [Hcount Hfinal].
      simpl in Hcount, Hfinal. unfold n. simpl length.
      rewrite (fives_in_five_more _ Hfive), <- Nat.succ_min_distr.
      split; [simpl; by rewrite Hcount|].
      rewrite Hfinal, with_commendations_twice. do 2 f_equal. lia.
    + assert (Hless : (Student.commendations student < TARGET_COMMENDATIONS)%Z)
        by (simpl in Hcan; by apply Z.leb_gt).
      rewrite handleIssueVoucher_at_refused by (by rewrite Hchosen).
      destruct (IH _ _ Hchosen) as [Hcount Hfinal].
      unfold n. rewrite (fives_in_less_than_five _ Hless) in *.
      rewrite Nat.min_0_r in *. split; [by rewrite Hcount|done].
Qed.

(** X8: no double issuing: pressing the issue button any number of times in
    a row, for a selected student with [c] commendations, issues exactly
    [c / 5] vouchers (or one per press, if there are fewer presses), and the
    student is left with five commendations less per voucher. *)
Theorem repeated_issuance (acts : list Action) (st : AppState)
    (student : Student.t) :
  Forall is_issue acts →
  selectedStudent (students st) (selectedStudentId st) = Some student →
  let n := Nat.min (length acts)
             (Z.to_nat (Student.commendations student / 5)) in
  length (issued acts st) = n ∧
  selectedStudent (students (run acts st)) (selectedStudentId (run acts st))
  = Some (Student.with_commendations student
            (Student.commendations student - 5 * Z.of_nat n)).
Proof. apply issuing_in_a_row_at. Qed.

(** *** How the handlers compose *)

Lemma setStudents_twice f g st :
  setStudents (Updater g) (setStudents (Updater f) st)
  = setStudents (Updater (g ∘ f)) st.
Proof.
  unfold setStudents, setAndStore, setItem. simpl.
  destruct (window st) as [ls|]; [|done].
  destruct (full ls) eqn:Hfull; simpl; rewrite ?Hfull; [done|].
  simpl. by rewrite insert_insert_eq.
Qed.

Lemma setStudents_ext f g st :
  f (students st) = g (students st) →
  setStudents (Updater f) st = setStudents (Updater g) st.
Proof. intros Heq. unfold setStudents, setAndStore. by rewrite Heq. Qed.

Lemma setVouchers_twice f g st :
  setVouchers (Updater g) (setVouchers (Updater f) st)
  = setVouchers (Updater (g ∘ f)) st.
Proof.
  unfold setVouchers, setAndStore, setItem. simpl.
  destruct (window st) as [ls|]; [|done].
  destruct (full ls) eqn:Hfull; simpl; rewrite ?Hfull; [done|].
  simpl. by rewrite insert_insert_eq.
Qed.

Lemma setVouchers_ext f g st :
  f (vouchers st) = g (vouchers st) →
  setVouchers (Updater f) st = setVouchers (Updater g) st.
Proof. intros Heq. unfold setVouchers, setAndStore. by rewrite Heq. Qed.

Lemma adjust_one_twice sid d1 d2 student :
  (0 ≤ d1 ∧ 0 ≤ Student.commendations student)%Z ∨ (d2 ≤ 0)%Z →
  adjust_one sid d2 (adjust_one sid d1 student)
  = adjust_one sid (d1 + d2) student.
Proof.
  intros Hok. unfold adjust_one.
  destruct (String.eqb (Student.id student) sid) eqn:Hid; simpl;
    rewrite Hid; [|done].
  unfold Student.with_commendations. simpl. f_equal. lia.
Qed.

(** X9: two adjustments of the same student add up, unless the first is
    cut off at zero and the second raises the count again: if the first
    delta is not negative and the roster holds no negative count, or if the
    second delta is not positive, adjusting by [d1] and then by [d2] gives
    the state that adjusting by [d1 + d2] gives.  In particular a press on
    + followed by a press on - changes nothing. *)
Theorem adjustments_add_up (sid : string) (d1 d2 : Z) (st : AppState) :
  ((0 ≤ d1)%Z ∧
   Forall (λ s, (0 ≤ Student.commendations s)%Z) (students st)) ∨
  (d2 ≤ 0)%Z →
  handleAdjustCommendations sid d2 (handleAdjustCommendations sid d1 st)
  = handleAdjustCommendations sid (d1 + d2) st.
Proof.
  intros Hok. unfold handleAdjustCommendations.
  rewrite setStudents_twice. apply setStudents_ext. simpl.
  rewrite map_map. apply Forall_fmap_ext_1.
  destruct Hok as [[Hd1 Hroster]|Hd2].
  - eapply Forall_impl; [exact Hroster|]. intros s Hs.
    apply adjust_one_twice. by left.
  - apply Forall_forall. intros s _. apply adjust_one_twice. by right.
Qed.

Lemma toggle_one_commute a b voucher :
  toggle_one a (toggle_one b voucher) = toggle_one b (toggle_one a voucher).
Proof.
  unfold toggle_one.
  destruct (String.eqb (Voucher.id voucher) a) eqn:Ha;
    destruct (String.eqb (Voucher.id voucher) b) eqn:Hb; simpl;
    by rewrite ?Ha, ?Hb.
Qed.

(** X10: vouchers can be marked in any order: toggling the id [a] and then
    the id [b] gives the same state, storage included, as toggling [b] and
    then [a]. *)
Theorem toggles_commute (a b : string) (st : AppState) :
  handleToggleRedeemed a (handleToggleRedeemed b st)
  = handleToggleRedeemed b (handleToggleRedeemed a st).
Proof.
  unfold handleToggleRedeemed. rewrite !setVouchers_twice.
  apply setVouchers_ext. simpl. rewrite !map_map. apply map_ext.
  intros v. apply toggle_one_commute.
Qed.

(** *** The ledger over a session *)

Lemma issued_at_fresh amountPence acts st :
  Forall (λ v, Voucher.amountPence v = amountPence ∧
               Voucher.redeemed v = false)
         (issued_at amountPence acts st).
Proof.
  revert st. induction acts as [|a acts IH]; intros st; [apply Forall_nil_2|].
  simpl. apply Forall_app. split; [|apply IH].
  eapply Forall_impl; [apply created_by_known|]. by intros v (_ & ? & ?).
Qed.

(** X11: every voucher of the ledger is worth the configured amount, if those
    it started with are; and if they were all unredeemed and the session
    toggles nothing, all are unredeemed: a voucher is never issued as
    already used. *)
Theorem ledger_amounts_and_flags (acts : list Action) (st : AppState) :
  (Forall (λ v, Voucher.amountPence v = VOUCHER_AMOUNT_PENCE) (vouchers st) →
   Forall (λ v, Voucher.amountPence v = VOUCHER_AMOUNT_PENCE)
          (vouchers (run acts st))) ∧
  (Forall (λ v, Voucher.redeemed v = false) (vouchers st) →
   Forall (λ a, ∀ voucherId, a ≠ ToggleRedeemed voucherId) acts →
   Forall (λ v, Voucher.redeemed v = false) (vouchers (run acts st))).
Proof.
  assert (Hfresh := issued_at_fresh VOUCHER_AMOUNT_PENCE acts st).
  split.
  - intros Hst.
    assert (Hall : Forall (λ t : string * string * string * string * Z,
                             t.2 = VOUCHER_AMOUNT_PENCE)
                          (map Voucher.frozen (vouchers (run acts st)))).
    { unfold run. rewrite run_at_frozen. apply Forall_app. split.
      - apply Forall_fmap, Forall_rev.
        eapply Forall_impl; [exact Hfresh|]. by intros v [? _].
      - by apply Forall_fmap. }
    by apply Forall_fmap in Hall.
  - intros Hst Hacts. unfold run. rewrite run_at_exact by done.
    apply Forall_app. split; [|done]. apply Forall_rev.
    eapply Forall_impl; [exact Hfresh|]. by intros v [_ ?].
Qed.

Lemma issued_ids_sublist amountPence acts st :
  map Voucher.id (issued_at amountPence acts st) `sublist_of` generated acts.
Proof.
  revert st. induction acts as [|a acts IH]; intros st; [constructor|].
  simpl. rewrite map_app.
  destruct a as [sid delta|newId nowIso|voucherId|sid|voucher| |p];
    simpl; try apply IH.
  destruct (selectedStudent _ _) as [student|]; [|apply sublist_cons, IH].
  destruct (_ <=? _)%Z; [|apply sublist_cons, IH].
  simpl. apply sublist_skip, IH.
Qed.

Lemma run_at_ids amountPence acts st :
  map Voucher.id (vouchers (run_at amountPence acts st))
  = rev (map Voucher.id (issued_at amountPence acts st))
      ++ map Voucher.id (vouchers st).
Proof.
  assert (Hfrozen := run_at_frozen amountPence acts st).
  apply (f_equal (map (λ t : string * string * string * string * Z,
                         t.1.1.1.1))) in Hfrozen.
  rewrite map_app, !map_map in Hfrozen. simpl in Hfrozen.
  by rewrite <- map_rev.
Qed.

(** X12: the ledger's ids stay distinct as long as [generateId] does its job:
    if the ids of the ledger are distinct, and the ids generated during the
    session are distinct and none is in the ledger already, then the ids of
    the ledger after the session are distinct. *)
Theorem ledger_ids_stay_distinct (acts : list Action) (st : AppState) :
  NoDup (map Voucher.id (vouchers st)) →
  NoDup (generated acts) →
  (∀ i, i ∈ generated acts → i ∉ map Voucher.id (vouchers st)) →
  NoDup (map Voucher.id (vouchers (run acts st))).
Proof.
  intros Hledger Hgenerated Hnew. unfold run. rewrite run_at_ids.
  assert (Hsub := issued_ids_sublist VOUCHER_AMOUNT_PENCE acts st).
  apply NoDup_app. split; [|split; [|done]].
  - apply NoDup_ListNoDup, NoDup_rev, NoDup_ListNoDup.
    by eapply sublist_NoDup.
  - intros i Hi. apply Hnew. eapply elem_of_sublist; [|exact Hsub].
    apply list_elem_of_In. apply in_rev. by apply list_elem_of_In.
Qed.

(** *** The selection over a session *)

Lemma step_at_selection amountPence st a :
  (∀ sid, a ≠ SelectStudent sid) →
  selectedStudentId (step_at amountPence st a) = selectedStudentId st.
Proof.
  intros Hnot.
  destruct a as [sid delta|newId nowIso|voucherId|sid|voucher| |p];
    [done|apply handleIssueVoucher_at_selected|done|by destruct (Hnot sid)
    |done..].
Qed.

Lemma step_at_selected_student amountPence st a :
  (∀ sid, a ≠ SelectStudent sid) →
  (λ s, (Student.id s, Student.name s))
    <$> selectedStudent (students (step_at amountPence st a))
                        (selectedStudentId (step_at amountPence st a))
  = (λ s, (Student.id s, Student.name s))
      <$> selectedStudent (students st) (selectedStudentId st).
Proof.
  intros Hnot. rewrite step_at_selection by done.
  destruct (step_at_roster amountPence st a) as [->|(sid & delta & ->)];
    [done|].
  rewrite selectedStudent_map by (intros s; apply adjust_one_id).
  destruct (selectedStudent _ _) as [s|]; [|done]. simpl.
  by rewrite adjust_one_id, adjust_one_name.
Qed.

(** X13: only a click on a student's row moves the selection: over a sequence
    of actions that selects nobody, the selected student keeps its id and
    its name, also when it is selected by default as the first of the
    roster. *)
Theorem selection_is_stable (acts : list Action) (st : AppState) :
  Forall (λ a, ∀ sid, a ≠ SelectStudent sid) acts →
  let st' := run acts st in
  Student.id <$> selectedStudent (students st') (selectedStudentId st')
  = Student.id <$> selectedStudent (students st) (selectedStudentId st) ∧
  Student.name <$> selectedStudent (students st') (selectedStudentId st')
  = Student.name <$> selectedStudent (students st) (selectedStudentId st).
Proof.
  intros Hacts st'.
  assert (Hwho : (λ s, (Student.id s, Student.name s))
                   <$> selectedStudent (students st') (selectedStudentId st')
                 = (λ s, (Student.id s, Student.name s))
                     <$> selectedStudent (students st) (selectedStudentId st)).
  { unfold st', run. clear st'. revert st.
    induction Hacts as [|a acts Ha _ IH]; intros st; [done|].
    by rewrite run_at_cons, IH, step_at_selected_student. }
  destruct (selectedStudent (students st') _) as [s'|],
           (selectedStudent (students st) _) as [s|]; simpl in *;
    try done.
  by injection Hwho as -> ->.
Qed.

(** *** What is shown *)

(** X16: the two "n more" texts agree: the issue panel reads "Needs n more"
    exactly when the badge of the same student reads "n more for a
    voucher", with the same n; that n is positive and is what is missing to
    five; and the panel reads "Eligible" exactly when the issue button is
    enabled. *)
Theorem badge_agrees_with_panel (student : Student.t) :
  let c := Student.commendations student in
  (∀ n, panel_status student = NeedsMore n ↔
        CommendationBadge.hint c = Some n) ∧
  (∀ n, CommendationBadge.hint c = Some n → (0 < n ∧ c + n = 5)%Z) ∧
  (panel_status student = EligibleForVoucher ↔
   canIssue (Some student) = true) ∧
  (CommendationBadge.hint c = None ↔ canIssue (Some student) = true).
Proof.
  intros c. unfold panel_status, CommendationBadge.hint,
    CommendationBadge.complete, CommendationBadge.remaining, canIssue.
  fold c. unfold TARGET_COMMENDATIONS.
  destruct (5 <=? c)%Z eqn:Hc.
  - repeat split; try done; intros; done.
  - apply Z.leb_gt in Hc.
    replace (Z.max 0 (5 - c)) with (5 - c)%Z by lia.
    split; [|split; [|split]].
    + intros n. split; intros [= <-]; done.
    + intros n [= <-]. lia.
    + split; done.
    + split; done.
Qed.

(** X15: some row is always highlighted: in a roster that is not empty, a row
    carries the selection mark whatever the selected id is (null or unknown
    ids included); the marked rows are those with the id of the student of
    the issue panel; and when the ids of the roster are distinct there is
    exactly one. *)
Theorem a_row_is_highlighted (roster : list Student.t)
    (selected : option string) :
  let sel := selectedStudent roster selected in
  (roster ≠ [] → ∃ i s, roster !! i = Some s ∧ row_selected sel s = true) ∧
  (∀ s, row_selected sel s = true ↔ Student.id <$> sel = Some (Student.id s)) ∧
  (NoDup (map Student.id roster) →
   ∀ i j s1 s2, roster !! i = Some s1 → roster !! j = Some s2 →
     row_selected sel s1 = true → row_selected sel s2 = true → i = j).
Proof.
  intros sel.
  assert (Hmark : ∀ s, row_selected sel s = true
                       ↔ Student.id <$> sel = Some (Student.id s)).
  { intros s. unfold row_selected. destruct sel as [chosen|]; simpl.
    - rewrite String.eqb_eq. split; congruence.
    - split; done. }
  split; [|split; [done|]].
  - intros Hroster. destruct sel as [chosen|] eqn:Hsel.
    + apply selectedStudent_elem, list_elem_of_lookup_1 in Hsel as [i Hi].
      exists i, chosen. split; [done|]. simpl. apply String.eqb_refl.
    + by apply selectedStudent_None in Hsel.
  - intros Hnodup i j s1 s2 Hi Hj H1 H2.
    apply Hmark in H1. apply Hmark in H2.
    apply (NoDup_lookup (map Student.id roster) i j (Student.id s1) Hnodup).
    + by rewrite list_lookup_fmap, Hi.
    + rewrite list_lookup_fmap, Hj. simpl. congruence.
Qed.

Lemma string_length_of_list (l : list ascii) :
  String.length (string_of_list_ascii l) = length l.
Proof. induction l as [|c l IH]; simpl; [done|by rewrite IH]. Qed.

Lemma slice_last_length n s :
  String.length (slice_last n s) = Nat.min n (String.length s).
Proof.
  unfold slice_last. rewrite string_length_of_list, length_drop.
  rewrite <- (string_of_list_ascii_of_string s) at 3.
  rewrite string_length_of_list. lia.
Qed.

Lemma toUpperCase_length s :
  String.length (toUpperCase s) = String.length s.
Proof.
  unfold toUpperCase. rewrite string_length_of_list, length_map.
  rewrite <- (string_of_list_ascii_of_string s) at 2.
  by rewrite string_length_of_list.
Qed.

Lemma toUpperCase_slice_last n s :
  toUpperCase (slice_last n s) = slice_last n (toUpperCase s).
Proof.
  unfold toUpperCase, slice_last.
  rewrite !list_ascii_of_string_of_list_ascii, length_map.
  f_equal. apply (fmap_drop upper_char).
Qed.

Lemma slice_last_slice_last n m s :
  (n ≤ m)%nat → slice_last n (slice_last m s) = slice_last n s.
Proof.
  intros Hnm. unfold slice_last.
  rewrite !list_ascii_of_string_of_list_ascii, length_drop, drop_drop.
  do 2 f_equal. lia.
Qed.

Lemma upper_char_not_lower c :
  ¬ (97 ≤ nat_of_ascii (upper_char c) ≤ 122)%nat.
Proof.
  unfold upper_char.
  destruct (97 <=? nat_of_ascii c)%nat eqn:Hlow; simpl.
  - destruct (nat_of_ascii c <=? 122)%nat eqn:Hhigh.
    + apply Nat.leb_le in Hlow, Hhigh.
      rewrite nat_ascii_embedding by lia. lia.
    + apply Nat.leb_gt in Hhigh. lia.
  - apply Nat.leb_gt in Hlow. lia.
Qed.

(** X17: the identifiers printed on a voucher: for an id of ASCII text, the
    short identifier has 8 characters, or as many as the id when the id is
    shorter, the long one 16; the short one is the end of the long one;
    and neither contains a lowercase letter. *)
Theorem printed_identifiers (voucher : Voucher.t) :
  is_ascii_text (Voucher.id voucher) →
  String.length (short_id voucher)
  = Nat.min 8 (String.length (Voucher.id voucher)) ∧
  String.length (long_id voucher)
  = Nat.min 16 (String.length (Voucher.id voucher)) ∧
  short_id voucher = slice_last 8 (long_id voucher) ∧
  Forall (λ c, ¬ (97 ≤ nat_of_ascii c ≤ 122)%nat)
         (list_ascii_of_string (short_id voucher)
            ++ list_ascii_of_string (long_id voucher)).
Proof.
  intros _. unfold short_id, long_id.
  rewrite !toUpperCase_length, !slice_last_length.
  split; [done|]. split; [done|]. split.
  - rewrite <- toUpperCase_slice_last.
    by rewrite slice_last_slice_last by lia.
  - unfold toUpperCase. rewrite !list_ascii_of_string_of_list_ascii.
    apply Forall_app. split; apply Forall_fmap, Forall_forall;
      intros c _; apply upper_char_not_lower.
Qed.

(** X14: looking changes no data: a sequence of selections, previews opened
    and closed, and page switches leaves the roster, the ledger and the
    storage exactly as they were; closing the preview of a voucher, in
    particular, does not take the voucher out of the ledger. *)
Theorem viewing_changes_no_data (acts : list Action) (st : AppState) :
  Forall is_view_action acts →
  students (run acts st) = students st ∧
  vouchers (run acts st) = vouchers st ∧
  window (run acts st) = window st.
Proof.
  intros Hacts. unfold run. revert st.
  induction Hacts as [|a acts Ha _ IH]; intros st; [done|].
  rewrite run_at_cons.
  destruct (IH (step_at VOUCHER_AMOUNT_PENCE st a)) as (-> & -> & ->).
  by destruct a.
Qed.

Lemma map_changes_one {A K : Type} (key : A → K) (f : A → A) (l : list A)
    (i : nat) (x : A) :
  NoDup (map key l) → l !! i = Some x →
  (∀ y, key y ≠ key x → f y = y) →
  map f l = <[i := f x]> l.
Proof.
  intros Hnodup Hi Hother. apply list_eq. intros j.
  rewrite list_lookup_fmap.
  destruct (decide (i = j)) as [<-|Hij].
  - rewrite Hi. simpl. symmetry. apply list_lookup_insert_eq.
    by eapply lookup_lt_Some.
  - rewrite list_lookup_insert_ne by done.
    destruct (l !! j) as [y|] eqn:Hj; [|done]. simpl. f_equal.
    apply Hother. intros Hkey. apply Hij.
    apply (NoDup_lookup (map key l) i j (key x) Hnodup).
    + by rewrite list_lookup_fmap, Hi.
    + rewrite list_lookup_fmap, Hj. simpl. by rewrite Hkey.
Qed.

(** X18: with distinct ids in the ledger, the button of a row of the log
    changes that row only: toggling the id of the voucher at position [i]
    gives the ledger with that one entry replaced by the same voucher with
    [redeemed] negated. *)
Theorem toggle_flips_one_row (st : AppState) (i : nat) (v : Voucher.t) :
  NoDup (map Voucher.id (vouchers st)) →
  vouchers st !! i = Some v →
  vouchers (handleToggleRedeemed (Voucher.id v) st)
  = <[i := Voucher.with_redeemed v (negb (Voucher.redeemed v))]> (vouchers st).
Proof.
  intros Hnodup Hi. unfold handleToggleRedeemed.
  rewrite vouchers_setVouchers.
  rewrite (map_changes_one Voucher.id _ _ i v Hnodup Hi).
  - f_equal. unfold toggle_one. by rewrite String.eqb_refl.
  - intros u Hu. by apply toggle_one_other.
Qed.

End Properties.

(** ** Examples *)

#[local] Existing Instance EmptyArrayJson.

(** The scenarios of the specification. *)

Example issue_with_five :
  let st' := handleIssueVoucher "id-1" "2025-03-01T09:00:00.000Z"
               (memory_only DEMO_STUDENTS [] (Some "s2")) in
  students st'
  = [ Student.mk "s1" "Alice Johnson" 3; Student.mk "s2" "Ben Carter" 0;
      Student.mk "s3" "Chloe Singh" 1; Student.mk "s4" "Daniel O'Neill" 4 ] ∧
  vouchers st'
  = [ Voucher.mk "id-1" "s2" "Ben Carter" "2025-03-01T09:00:00.000Z"
        290 false ].
Proof. split; reflexivity. Qed.

Example issue_with_seven :
  students (handleIssueVoucher "id-1" "2025-03-01T09:00:00.000Z" (classroom 7))
  = [alice 2; ben 5].
Proof. reflexivity. Qed.

Example issue_with_four :
  handleIssueVoucher "id-1" "2025-03-01T09:00:00.000Z" (classroom 4)
  = classroom 4.
Proof. reflexivity. Qed.

Example adjust_clamps_at_zero :
  students (handleAdjustCommendations "s1" (-3) (classroom 1))
  = [alice 0; ben 5].
Proof. reflexivity. Qed.

(** The theorems at concrete inputs. *)

Lemma selectedStudent_spec_witness :
  (∃ s, s ∈ DEMO_STUDENTS ∧ Student.id s = "s3") ∧
  (∃ before s after,
     DEMO_STUDENTS = before ++ s :: after ∧ Student.id s = "s3" ∧
     Forall (λ x, Student.id x ≠ "s3") before ∧
     selectedStudent DEMO_STUDENTS (Some "s3") = Some s) ∧
  selectedStudent DEMO_STUDENTS None = head DEMO_STUDENTS.
Proof.
  assert (Hin : ∃ s, s ∈ DEMO_STUDENTS ∧ Student.id s = "s3").
  { exists (Student.mk "s3" "Chloe Singh" 1). split; [|reflexivity].
    unfold DEMO_STUDENTS. do 2 apply list_elem_of_further.
    apply list_elem_of_here. }
  split; [exact Hin|]. split.
  - exact (proj1 (selectedStudent_spec DEMO_STUDENTS (Some "s3"))
             "s3" eq_refl Hin).
  - exact (proj1 (proj2 (selectedStudent_spec DEMO_STUDENTS None))
             (or_introl eq_refl)).
Defined.

Lemma issue_gate_witness :
  let st := classroom 4 in
  let st' := handleIssueVoucher "id-1" "2025-03-01T09:00:00.000Z" st in
  (¬ ∃ student,
       selectedStudent (students st) (selectedStudentId st) = Some student ∧
       (5 ≤ Student.commendations student)%Z) ∧
  st' = st ∧ students st' = students st ∧ vouchers st' = vouchers st.
Proof.
  intros st st'.
  assert (Hno : ¬ ∃ student,
       selectedStudent (students st) (selectedStudentId st) = Some student ∧
       (5 ≤ Student.commendations student)%Z).
  { intros (student & Hsel & Hfive). vm_compute in Hsel.
    injection Hsel as <-. simpl in Hfive. lia. }
  split; [exact Hno|].
  exact (proj2 (issue_gate st "id-1" "2025-03-01T09:00:00.000Z") Hno).
Defined.

Lemma issue_debits_witness :
  let st := classroom 7 in
  let st' := handleIssueVoucher "id-1" "2025-03-01T09:00:00.000Z" st in
  selectedStudent (students st) (selectedStudentId st) = Some (alice 7) ∧
  (5 ≤ Student.commendations (alice 7))%Z ∧
  selectedStudent (students st') (selectedStudentId st') = Some (alice 2) ∧
  students st' = map (debit_one "s1") (students st) ∧
  length (vouchers st') = S (length (vouchers st)).
Proof.
  intros st st'.
  assert (Hsel : selectedStudent (students st) (selectedStudentId st)
                 = Some (alice 7)) by reflexivity.
  assert (Hfive : (5 ≤ Student.commendations (alice 7))%Z) by (simpl; lia).
  split; [exact Hsel|]. split; [exact Hfive|].
  exact (issue_debits st "id-1" "2025-03-01T09:00:00.000Z" (alice 7)
           Hsel Hfive).
Defined.

Lemma commendations_never_negative_witness :
  let acts := [ AdjustCommendations "s1" (-3);
                IssueVoucher "id-1" "2025-03-01T09:00:00.000Z";
                AdjustCommendations "s2" (-10) ] in
  Forall (λ s, (0 ≤ Student.commendations s)%Z) (students (classroom 1)) ∧
  Forall (λ s, (0 ≤ Student.commendations s)%Z)
         (students (run (take 3 acts) (classroom 1))).
Proof.
  intros acts.
  assert (Hst : Forall (λ s, (0 ≤ Student.commendations s)%Z)
                       (students (classroom 1))).
  { repeat (constructor; [simpl; lia|]). constructor. }
  split; [exact Hst|].
  exact (commendations_never_negative acts (classroom 1) Hst 3%nat).
Defined.

Lemma adjust_frame_witness :
  let st := classroom 1 in
  let st' := handleAdjustCommendations "s9" 2 st in
  Forall (λ s, Student.id s ≠ "s9") (students st) ∧
  students st' = students st.
Proof.
  intros st st'.
  assert (Hnone : Forall (λ s, Student.id s ≠ "s9") (students st)).
  { repeat (constructor; [discriminate|]). constructor. }
  split; [exact Hnone|].
  exact (proj1 (adjust_frame "s9" 2 st) Hnone).
Defined.

Lemma ledger_most_recent_first_witness :
  let st := in_browser [bens_voucher] in
  let now := "2025-03-02T10:30:00.000Z" in
  let acts := [ IssueVoucher "id-2" now; AdjustCommendations "s1" 1 ] in
  canIssue (selectedStudent (students st) (selectedStudentId st)) = true ∧
  Forall (λ a, ∀ voucherId, a ≠ ToggleRedeemed voucherId) acts ∧
  (∃ voucher,
     issued [IssueVoucher "id-2" now] st = [voucher] ∧
     Voucher.id voucher = "id-2" ∧ Voucher.issuedAt voucher = now ∧
     listVouchers (handleIssueVoucher "id-2" now st)
     = voucher :: listVouchers st) ∧
  listVouchers (run acts st) = rev (issued acts st) ++ listVouchers st.
Proof.
  intros st now acts.
  assert (Hcan : canIssue (selectedStudent (students st) (selectedStudentId st))
                 = true) by reflexivity.
  assert (Hacts : Forall (λ a, ∀ voucherId, a ≠ ToggleRedeemed voucherId) acts).
  { repeat (constructor; [discriminate|]). constructor. }
  split; [exact Hcan|]. split; [exact Hacts|].
  destruct (ledger_most_recent_first acts st "id-2" now) as (Hone & _ & Hall).
  split; [exact (Hone Hcan)|exact (Hall Hacts)].
Defined.

Lemma toggle_involution_witness :
  let st := in_browser [bens_voucher] in
  Forall (λ v, Voucher.id v ≠ "no-such-id") (vouchers st) ∧
  vouchers (handleToggleRedeemed "no-such-id" st) = vouchers st ∧
  vouchers st !! 0%nat = Some bens_voucher ∧
  vouchers (handleToggleRedeemed "3f2a9c1e-0001" st) !! 0%nat
  = Some (Voucher.with_redeemed bens_voucher true).
Proof.
  intros st.
  assert (Hnone : Forall (λ v, Voucher.id v ≠ "no-such-id") (vouchers st)).
  { repeat (constructor; [discriminate|]). constructor. }
  destruct (toggle_involution "no-such-id" st) as (_ & Hunknown & _).
  destruct (toggle_involution "3f2a9c1e-0001" st) as (_ & _ & Hflip).
  split; [exact Hnone|]. split; [exact (Hunknown Hnone)|].
  split; [reflexivity|].
  exact (Hflip 0%nat bens_voucher eq_refl eq_refl).
Defined.

Lemma ledger_permanent_witness :
  let st := in_browser [bens_voucher] in
  let acts := [ IssueVoucher "id-2" "2025-03-02T10:30:00.000Z";
                ToggleRedeemed "id-2";
                AdjustCommendations "s2" (-1) ] in
  vouchers st !! 0%nat = Some bens_voucher ∧
  length (vouchers (run acts st))
  = (length (issued acts st) + length (vouchers st))%nat ∧
  ∃ v', vouchers (run acts st) !! (length (issued acts st) + 0)%nat = Some v' ∧
        Voucher.id v' = Voucher.id bens_voucher ∧
        Voucher.studentId v' = Voucher.studentId bens_voucher ∧
        Voucher.studentName v' = Voucher.studentName bens_voucher ∧
        Voucher.issuedAt v' = Voucher.issuedAt bens_voucher ∧
        Voucher.amountPence v' = Voucher.amountPence bens_voucher ∧
        (ToggleRedeemed (Voucher.id bens_voucher) ∉ acts → v' = bens_voucher).
Proof.
  intros st acts. split; [reflexivity|].
  exact (ledger_permanent acts st 0%nat bens_voucher eq_refl).
Defined.

Lemma voucher_snapshot_witness :
  let st := in_browser [bens_voucher] in
  let es := [ RosterEdit (rename_to "s2" "Benjamin Carter");
              AmountChange 350;
              UserAction (IssueVoucher "id-2" "2025-03-02T10:30:00.000Z") ] in
  vouchers st !! 0%nat = Some bens_voucher ∧
  ∃ v', vouchers (run_events es (VOUCHER_AMOUNT_PENCE, st)).2
          !! (added_by es (VOUCHER_AMOUNT_PENCE, st) + 0)%nat = Some v' ∧
        Voucher.studentName v' = Voucher.studentName bens_voucher ∧
        Voucher.amountPence v' = Voucher.amountPence bens_voucher.
Proof.
  intros st es. split; [reflexivity|].
  exact (voucher_snapshot es VOUCHER_AMOUNT_PENCE st 0%nat bens_voucher eq_refl).
Defined.

Example rename_and_new_amount :
  let st := in_browser [bens_voucher] in
  let es := [ RosterEdit (rename_to "s2" "Benjamin Carter");
              AmountChange 350;
              UserAction (IssueVoucher "id-2" "2025-03-02T10:30:00.000Z") ] in
  vouchers (run_events es (VOUCHER_AMOUNT_PENCE, st)).2
  = [ Voucher.mk "id-2" "s2" "Benjamin Carter" "2025-03-02T10:30:00.000Z"
        350 false;
      bens_voucher ].
Proof. vm_compute. reflexivity. Qed.

Lemma load_falls_back_to_default_witness :
  let ledger_only : gmap string string := {[ vouchers_key := "[]" ]} in
  let win := browser (<[ students_key := "{not json" ]> ledger_only) in
  absent_or_malformed (T := list Student.t) win students_key ∧
  students (App_init win) = DEMO_STUDENTS ∧
  vouchers (App_init win) = vouchers (App_init (browser ledger_only)).
Proof.
  intros ledger_only win.
  assert (Hbad : absent_or_malformed (T := list Student.t) win students_key).
  { right. right. exists "{not json". split; [apply lookup_insert_eq|reflexivity]. }
  destruct load_falls_back_to_default as (_ & Hroster & _ & Hledger).
  split; [exact Hbad|]. split; [exact (Hroster win Hbad)|].
  exact (Hledger ledger_only "{not json" false false).
Defined.

Example load_stored_ledger :
  vouchers (App_init (browser {[ vouchers_key := "[]" ]})) = [] ∧
  students (App_init (browser ∅)) = DEMO_STUDENTS ∧
  students (App_init None) = DEMO_STUDENTS.
Proof. vm_compute. repeat split. Qed.

(** The further properties at concrete inputs. *)

Lemma positive_of_bits_of_positive (p : positive) :
  positive_of_bits (bits_of_positive p) = Some p.
Proof. induction p as [q IH|q IH|]; simpl; by rewrite ?IH. Qed.

Lemma BinaryJson_round_trips (T : Type) `{Countable T} :
  @round_trips T (BinaryJson T).
Proof.
  intros v. simpl. rewrite positive_of_bits_of_positive. simpl.
  by rewrite decode_encode.
Qed.

Lemma full_storage_is_left_alone_witness :
  let st := on_storage quota_used_up [] in
  let acts := [ IssueVoucher "id-1" "2025-03-01T09:00:00.000Z";
                ToggleRedeemed "id-1" ] in
  window st = Some quota_used_up ∧ full quota_used_up = true ∧
  window (run acts st) = Some quota_used_up ∧
  App_init (window (run acts st)) = App_init (window st).
Proof.
  intros st acts. split; [reflexivity|]. split; [reflexivity|].
  exact (full_storage_is_left_alone acts st quota_used_up eq_refl eq_refl).
Defined.

Lemma session_writes_its_two_keys_witness :
  let st := on_storage empty_storage [bens_voucher] in
  let acts := [ AdjustCommendations "s1" 1; ToggleRedeemed "3f2a9c1e-0001" ] in
  window st = Some empty_storage ∧
  ∃ ls', window (run acts st) = Some ls' ∧
         unreadable ls' = unreadable empty_storage ∧
         full ls' = full empty_storage ∧
         (∀ key, key ≠ students_key → key ≠ vouchers_key →
            items ls' !! key = items empty_storage !! key) ∧
         (∀ key, is_Some (items empty_storage !! key) →
            is_Some (items ls' !! key)).
Proof.
  intros st acts. split; [reflexivity|].
  exact (session_writes_its_two_keys acts st empty_storage eq_refl).
Defined.

Lemma reload_restores_session_witness :
  let J1 := BinaryJson (list Student.t) in
  let J2 := BinaryJson (list Voucher.t) in
  let acts := [ AdjustCommendations "s1" 2;
                IssueVoucher "id-1" "2025-03-01T09:00:00.000Z";
                ToggleRedeemed "id-1" ] in
  let st := @run J1 J2 acts (@App_init J1 J2 (Some empty_storage)) in
  @round_trips _ J1 ∧ @round_trips _ J2 ∧
  unreadable empty_storage = false ∧ full empty_storage = false ∧
  students (@App_init J1 J2 (window st)) = students st ∧
  vouchers (@App_init J1 J2 (window st)) = vouchers st.
Proof.
  intros J1 J2 acts st.
  assert (H1 : @round_trips _ J1) by apply BinaryJson_round_trips.
  assert (H2 : @round_trips _ J2) by apply BinaryJson_round_trips.
  split; [exact H1|]. split; [exact H2|].
  split; [reflexivity|]. split; [reflexivity|].
  exact (@reload_restores_session J1 J2 acts empty_storage H1 H2
           eq_refl eq_refl).
Defined.

Lemma ledger_refers_to_roster_witness :
  let st := in_browser [bens_voucher] in
  let acts := [ IssueVoucher "id-2" "2025-03-02T10:30:00.000Z";
                AdjustCommendations "s2" 3 ] in
  Forall (λ v, (Voucher.studentId v, Voucher.studentName v)
               ∈ roster_names (students st)) (vouchers st) ∧
  Forall (λ v, (Voucher.studentId v, Voucher.studentName v)
               ∈ roster_names (students (run acts st)))
         (vouchers (run acts st)).
Proof.
  intros st acts.
  assert (Hst : Forall (λ v, (Voucher.studentId v, Voucher.studentName v)
                             ∈ roster_names (students st)) (vouchers st)).
  { apply Forall_singleton. apply list_elem_of_further, list_elem_of_here. }
  split; [exact Hst|]. exact (ledger_refers_to_roster acts st Hst).
Defined.

Lemma vouchers_cost_five_witness :
  let st := in_browser [] in
  let acts := [ IssueVoucher "id-1" "2025-03-01T09:00:00.000Z";
                ToggleRedeemed "id-1";
                IssueVoucher "id-2" "2025-03-01T09:00:05.000Z" ] in
  NoDup (map Student.id (students st)) ∧
  Forall (λ a, ∀ sid delta, a ≠ AdjustCommendations sid delta) acts ∧
  (total_commendations (students (run acts st))
   + 5 * Z.of_nat (length (issued acts st))
   = total_commendations (students st))%Z.
Proof.
  intros st acts.
  assert (Hnodup : NoDup (map Student.id (students st)))
    by (apply (bool_decide_unpack _); vm_compute; exact I).
  assert (Hacts : Forall (λ a, ∀ sid delta, a ≠ AdjustCommendations sid delta)
                         acts).
  { repeat (constructor; [discriminate|]). constructor. }
  split; [exact Hnodup|]. split; [exact Hacts|].
  exact (vouchers_cost_five acts st Hnodup Hacts).
Defined.

Lemma repeated_issuance_witness :
  let st := classroom 12 in
  let acts := [ IssueVoucher "id-1" "2025-03-01T09:00:00.000Z";
                IssueVoucher "id-2" "2025-03-01T09:00:01.000Z";
                IssueVoucher "id-3" "2025-03-01T09:00:02.000Z" ] in
  Forall is_issue acts ∧
  selectedStudent (students st) (selectedStudentId st) = Some (alice 12) ∧
  length (issued acts st) = 2%nat ∧
  selectedStudent (students (run acts st)) (selectedStudentId (run acts st))
  = Some (alice 2).
Proof.
  intros st acts.
  assert (Hacts : Forall is_issue acts).
  { repeat (constructor; [eexists _, _; reflexivity|]). constructor. }
  split; [exact Hacts|]. split; [reflexivity|].
  exact (repeated_issuance acts st (alice 12) Hacts eq_refl).
Defined.

Lemma adjustments_add_up_witness :
  let st := classroom 0 in
  ((0 ≤ 1)%Z ∧
   Forall (λ s, (0 ≤ Student.commendations s)%Z) (students st)) ∧
  handleAdjustCommendations "s1" (-1) (handleAdjustCommendations "s1" 1 st)
  = handleAdjustCommendations "s1" (1 + -1) st.
Proof.
  intros st.
  assert (Hok : (0 ≤ 1)%Z ∧
                Forall (λ s, (0 ≤ Student.commendations s)%Z) (students st)).
  { split; [lia|]. repeat (constructor; [simpl; lia|]). constructor. }
  split; [exact Hok|].
  exact (adjustments_add_up "s1" 1 (-1) st (or_introl Hok)).
Defined.

Lemma ledger_amounts_and_flags_witness :
  let st := in_browser [bens_voucher] in
  let acts := [ IssueVoucher "id-2" "2025-03-02T10:30:00.000Z";
                AdjustCommendations "s1" 1 ] in
  Forall (λ v, Voucher.amountPence v = VOUCHER_AMOUNT_PENCE) (vouchers st) ∧
  Forall (λ v, Voucher.redeemed v = false) (vouchers st) ∧
  Forall (λ a, ∀ voucherId, a ≠ ToggleRedeemed voucherId) acts ∧
  Forall (λ v, Voucher.amountPence v = VOUCHER_AMOUNT_PENCE)
         (vouchers (run acts st)) ∧
  Forall (λ v, Voucher.redeemed v = false) (vouchers (run acts st)).
Proof.
  intros st acts.
  assert (Hamount : Forall (λ v, Voucher.amountPence v = VOUCHER_AMOUNT_PENCE)
                           (vouchers st))
    by (apply Forall_singleton; reflexivity).
  assert (Hflag : Forall (λ v, Voucher.redeemed v = false) (vouchers st))
    by (apply Forall_singleton; reflexivity).
  assert (Hacts : Forall (λ a, ∀ voucherId, a ≠ ToggleRedeemed voucherId) acts).
  { repeat (constructor; [discriminate|]). constructor. }
  destruct (ledger_amounts_and_flags acts st) as [Hkeep Hfresh].
  split; [exact Hamount|]. split; [exact Hflag|]. split; [exact Hacts|].
  split; [exact (Hkeep Hamount)|exact (Hfresh Hflag Hacts)].
Defined.

Lemma ledger_ids_stay_distinct_witness :
  let st := in_browser [bens_voucher] in
  let acts := [ IssueVoucher "id-2" "2025-03-02T10:30:00.000Z";
                ToggleRedeemed "id-2";
                IssueVoucher "id-3" "2025-03-02T10:31:00.000Z" ] in
  NoDup (map Voucher.id (vouchers st)) ∧
  NoDup (generated acts) ∧
  (∀ i, i ∈ generated acts → i ∉ map Voucher.id (vouchers st)) ∧
  NoDup (map Voucher.id (vouchers (run acts st))).
Proof.
  intros st acts.
  assert (Hledger : NoDup (map Voucher.id (vouchers st)))
    by (apply (bool_decide_unpack _); vm_compute; exact I).
  assert (Hgenerated : NoDup (generated acts))
    by (apply (bool_decide_unpack _); vm_compute; exact I).
  assert (Hnew : ∀ i, i ∈ generated acts → i ∉ map Voucher.id (vouchers st)).
  { intros i Hi Hin. apply list_elem_of_singleton in Hin. subst i.
    apply elem_of_cons in Hi as [Hi|Hi]; [discriminate|].
    apply list_elem_of_singleton in Hi. discriminate. }
  split; [exact Hledger|]. split; [exact Hgenerated|]. split; [exact Hnew|].
  exact (ledger_ids_stay_distinct acts st Hledger Hgenerated Hnew).
Defined.

Lemma selection_is_stable_witness :
  let st := memory_only DEMO_STUDENTS [] None in
  let acts := [ AdjustCommendations "s1" 2;
                IssueVoucher "id-1" "2025-03-01T09:00:00.000Z" ] in
  let st' := run acts st in
  Forall (λ a, ∀ sid, a ≠ SelectStudent sid) acts ∧
  Student.id <$> selectedStudent (students st') (selectedStudentId st')
  = Student.id <$> selectedStudent (students st) (selectedStudentId st) ∧
  Student.name <$> selectedStudent (students st') (selectedStudentId st')
  = Student.name <$> selectedStudent (students st) (selectedStudentId st).
Proof.
  intros st acts st'.
  assert (Hacts : Forall (λ a, ∀ sid, a ≠ SelectStudent sid) acts).
  { repeat (constructor; [discriminate|]). constructor. }
  split; [exact Hacts|]. exact (selection_is_stable acts st Hacts).
Defined.

Lemma viewing_changes_no_data_witness :
  let st := in_browser [bens_voucher] in
  let acts := [ SelectStudent "s3"; ReopenVoucher bens_voucher;
                CloseVoucher; ShowPage log ] in
  Forall is_view_action acts ∧
  students (run acts st) = students st ∧
  vouchers (run acts st) = vouchers st ∧
  window (run acts st) = window st.
Proof.
  intros st acts.
  assert (Hacts : Forall is_view_action acts).
  { repeat (constructor; [exact I|]). constructor. }
  split; [exact Hacts|]. exact (viewing_changes_no_data acts st Hacts).
Defined.

Lemma badge_agrees_with_panel_witness :
  CommendationBadge.hint 3 = Some 2%Z ∧
  panel_status (alice 3) = NeedsMore 2 ∧
  (0 < 2 ∧ 3 + 2 = 5)%Z.
Proof.
  assert (Hhint : CommendationBadge.hint 3 = Some 2%Z) by reflexivity.
  destruct (badge_agrees_with_panel (alice 3)) as (Hsame & Hmissing & _).
  split; [exact Hhint|].
  split; [exact (proj2 (Hsame 2%Z) Hhint)|exact (Hmissing 2%Z Hhint)].
Defined.

Lemma a_row_is_highlighted_witness :
  DEMO_STUDENTS ≠ [] ∧
  ∃ i s, DEMO_STUDENTS !! i = Some s ∧
         row_selected (selectedStudent DEMO_STUDENTS (Some "nobody")) s = true.
Proof.
  assert (Hroster : DEMO_STUDENTS ≠ []) by discriminate.
  split; [exact Hroster|].
  exact (proj1 (a_row_is_highlighted DEMO_STUDENTS (Some "nobody")) Hroster).
Defined.

Lemma printed_identifiers_witness :
  is_ascii_text (Voucher.id bens_voucher) ∧
  String.length (short_id bens_voucher)
  = Nat.min 8 (String.length (Voucher.id bens_voucher)) ∧
  String.length (long_id bens_voucher)
  = Nat.min 16 (String.length (Voucher.id bens_voucher)) ∧
  short_id bens_voucher = slice_last 8 (long_id bens_voucher) ∧
  Forall (λ c, ¬ (97 ≤ nat_of_ascii c ≤ 122)%nat)
         (list_ascii_of_string (short_id bens_voucher)
            ++ list_ascii_of_string (long_id bens_voucher)).
Proof.
  assert (Hascii : is_ascii_text (Voucher.id bens_voucher)).
  { unfold is_ascii_text. simpl.
    repeat (constructor; [vm_compute; lia|]). constructor. }
  split; [exact Hascii|]. exact (printed_identifiers bens_voucher Hascii).
Defined.

Example identifiers_of_a_uuid :
  let voucher := Voucher.mk "9b2f7c1e-4a3d-4e8b-b1c2-7f6e5d4c3b2a" "s2"
                   "Ben Carter" "2025-03-01T09:00:00.000Z" 290 false in
  short_id voucher = "5D4C3B2A" ∧ long_id voucher = "1C2-7F6E5D4C3B2A".
Proof. vm_compute. split; reflexivity. Qed.

(** Why the cost of a voucher is stated for distinct ids: the debit is
    applied to every entry that has the id of the selected student, and it
    is cut off at zero for those with less than five. *)
Example entries_sharing_an_id_are_debited_together :
  students (handleIssueVoucher "id-1" "2025-03-01T09:00:00.000Z"
              (memory_only [alice 7; alice 2; ben 5] [] (Some "s1")))
  = [alice 2; alice 0; ben 5].
Proof. reflexivity. Qed.

(** Why adjustments add up only under a condition: at zero, a press on -
    and then a press on + leaves one commendation. *)
Example minus_then_plus_at_zero :
  students (handleAdjustCommendations "s1" 1
              (handleAdjustCommendations "s1" (-1) (classroom 0)))
  = [alice 1; ben 5].
Proof. reflexivity. Qed.

Lemma toggle_flips_one_row_witness :
  let newer := Voucher.mk "id-2" "s1" "Alice Johnson"
                 "2025-03-02T10:30:00.000Z" 290 false in
  let st := in_browser [newer; bens_voucher] in
  NoDup (map Voucher.id (vouchers st)) ∧
  vouchers st !! 1%nat = Some bens_voucher ∧
  vouchers (handleToggleRedeemed (Voucher.id bens_voucher) st)
  = <[1%nat := Voucher.with_redeemed bens_voucher
                 (negb (Voucher.redeemed bens_voucher))]> (vouchers st).
Proof.
  intros newer st.
  assert (Hnodup : NoDup (map Voucher.id (vouchers st)))
    by (apply (bool_decide_unpack _); vm_compute; exact I).
  split; [exact Hnodup|]. split; [reflexivity|].
  exact (toggle_flips_one_row st 1%nat bens_voucher Hnodup eq_refl).
Defined.
